(** * Crime-Sensor: the streaming detection pipeline of [app.py]

    A shallow embedding of [send_alert], [upload_to_drive] and
    [upload_video].  Python floats that are only compared (confidences,
    clock readings) are rationals; the process-wide state
    ([last_alert_time], the files on disk) is a [world] threaded through
    a state-and-exception monad; the classifier, the clock, Twilio and
    Google Drive are collaborators given by a type class. *)

From Stdlib Require Import QArith Lqa Lia Bool Arith List String Ascii.
From stdpp Require Import gmap strings list.

Local Open Scope string_scope.
Local Open Scope list_scope.
Local Open Scope nat_scope.

Arguments Nat.modulo : simpl never.
Arguments Nat.div : simpl never.

(** ** CONFIG *)

Definition SEQ_LENGTH : nat := 16.
Definition CONFIDENCE_THRESHOLD : Q := 7 # 10.
Definition ALERT_INTERVAL : Q := 10 # 1.
Definition FRAME_SKIP : nat := 5.
Definition CLIP_PATH : string := "crime_clip.mp4".

(** ** Floats as rationals *)

(** [x < y] on floats that are not NaN. *)
Definition Qltb (x y : Q) : bool := negb (Qle_bool y x).

(** [round(x)] of Python: to the nearest integer, halves to the even one. *)
Definition round_half_even (q : Q) : Z :=
  let n := Qnum q in
  let d := Zpos (Qden q) in
  let fl := (n / d)%Z in
  let r2 := (2 * (n mod d))%Z in
  if (r2 <? d)%Z then fl
  else if (d <? r2)%Z then (fl + 1)%Z
  else if Z.even fl then fl else (fl + 1)%Z.

(** [round(x, 2)]. *)
Definition round2 (q : Q) : Q := Qred (round_half_even (q * (100 # 1)) # 100).

(** ** Strings: [str.lower], [str.upper], [os.path.basename] *)

Definition lower_ascii (c : ascii) : ascii :=
  let n := nat_of_ascii c in
  if (65 <=? n) && (n <=? 90) then ascii_of_nat (n + 32) else c.

Definition upper_ascii (c : ascii) : ascii :=
  let n := nat_of_ascii c in
  if (97 <=? n) && (n <=? 122) then ascii_of_nat (n - 32) else c.

Fixpoint lower (s : string) : string :=
  match s with
  | EmptyString => EmptyString
  | String c r => String (lower_ascii c) (lower r)
  end.

Fixpoint upper (s : string) : string :=
  match s with
  | EmptyString => EmptyString
  | String c r => String (upper_ascii c) (upper r)
  end.

Fixpoint basename_from (acc s : string) : string :=
  match s with
  | EmptyString => acc
  | String c r =>
      if Ascii.eqb c "/"%char then basename_from EmptyString r
      else basename_from (acc +:+ String c EmptyString) r
  end.

Definition basename (path : string) : string := basename_from EmptyString path.

(** ** Data *)

(** A per-window prediction [(pred_class, confidence)]. *)
Definition prediction : Type := string * Q.

(** The two f-string templates passed to [send_alert]. *)
Inductive message : Type :=
| Warning (activity : string)   (* "WARNING: Suspicious activity detected! Type: {activity}" *)
| Critical (link : string).     (* "CRITICAL ALERT: Crime confirmed! Watch the clip here:\n{link}" *)

(** An open [cv2.VideoWriter]. *)
Record writer : Type := { w_path : string }.

(** What the request posts under the key "video": a file OpenCV can decode
    into frames, or one it cannot open. *)
Inductive video_file (frame : Type) : Type :=
| Decodable (frames : list frame)
| Undecodable.
Arguments Decodable {frame} frames.
Arguments Undecodable {frame}.

(** The value the route returns. *)
Inductive http_response : Type :=
| Json200 (pred_class : string) (confidence : Q)
| Error400 (error : string).

(** Exceptions nothing in [app.py] catches. *)
Inductive exn : Type := ClassifierError | UploadError.

Inductive result (A : Type) : Type :=
| Ok (a : A)
| Raise (e : exn).
Arguments Ok {A} a.
Arguments Raise {A} e.

(** The outward effects, in the order they happen. *)
Inductive event (frame : Type) : Type :=
| Offered (f : frame)
| Classified (window : list frame)
| WriterOpened (path : string) (fourcc : string) (fps : nat) (size : nat * nat)
| FrameWritten (path : string) (f : frame)
| WriterReleased (path : string)
| Uploaded (name : string) (content : list frame) (link : string)
| UploadFailed (path : string)
| AlertSent (msg : message)
| AlertFailed (msg : message).
Arguments Offered {frame} f.
Arguments Classified {frame} window.
Arguments WriterOpened {frame} path fourcc fps size.
Arguments FrameWritten {frame} path f.
Arguments WriterReleased {frame} path.
Arguments Uploaded {frame} name content link.
Arguments UploadFailed {frame} path.
Arguments AlertSent {frame} msg.
Arguments AlertFailed {frame} msg.

(** State that outlives a request: the module global [last_alert_time],
    the clips on disk, how often each collaborator has been called, and
    the effects so far. *)
Record world (frame : Type) : Type := {
  last_alert_time : Q;
  time_calls : nat;
  twilio_calls : nat;
  drive_calls : nat;
  fs : gmap string (list frame);
  trace : list (event frame)
}.
Arguments last_alert_time {frame} w.
Arguments time_calls {frame} w.
Arguments twilio_calls {frame} w.
Arguments drive_calls {frame} w.
Arguments fs {frame} w.
Arguments trace {frame} w.

(** The locals of [upload_video]. *)
Record locals (frame : Type) : Type := {
  frame_buffer : list frame;
  all_predictions : list prediction;
  crime_detected : bool;
  crime_frame_count : nat;
  out : option writer;
  frame_count : nat
}.
Arguments frame_buffer {frame} l.
Arguments all_predictions {frame} l.
Arguments crime_detected {frame} l.
Arguments crime_frame_count {frame} l.
Arguments out {frame} l.
Arguments frame_count {frame} l.

(** The collaborators.  [clock n] is what the [n]-th call of [time()]
    returns, [twilio_create n] whether the [n]-th [messages.create]
    succeeds, [drive_create n] the file id of the [n]-th upload, or [None]
    when it raises; [predict_activity] returns [None] when it raises. *)
Class Collaborators (frame : Type) : Type := {
  shape : frame -> nat * nat;
  predict_activity : list frame -> option prediction;
  clock : nat -> Q;
  twilio_create : nat -> bool;
  drive_create : nat -> option string
}.

(** ** The state-and-exception monad *)

Definition M (frame A : Type) : Type := world frame -> result A * world frame.

Global Instance M_ret {frame} : MRet (M frame) :=
  fun A a w => (Ok a, w).

Global Instance M_bind {frame} : MBind (M frame) :=
  fun A B k m w =>
    match m w with
    | (Ok a, w') => k a w'
    | (Raise e, w') => (Raise e, w')
    end.

Definition raise {frame A} (e : exn) : M frame A := fun w => (Raise e, w).

Section Pipeline.
Context {frame : Type} `{C : Collaborators frame}.

Abbreviation world := (world frame).
Abbreviation locals := (locals frame).
Abbreviation M := (M frame).

Definition emit (e : event frame) : M unit := fun w =>
  (Ok tt, {| last_alert_time := last_alert_time w; time_calls := time_calls w;
             twilio_calls := twilio_calls w; drive_calls := drive_calls w;
             fs := fs w; trace := trace w ++ [e] |}).

(** [time()] *)
Definition time : M Q := fun w =>
  (Ok (clock (time_calls w)),
   {| last_alert_time := last_alert_time w; time_calls := S (time_calls w);
      twilio_calls := twilio_calls w; drive_calls := drive_calls w;
      fs := fs w; trace := trace w |}).

Definition get_last_alert_time : M Q := fun w => (Ok (last_alert_time w), w).

Definition set_last_alert_time (t : Q) : M unit := fun w =>
  (Ok tt, {| last_alert_time := t; time_calls := time_calls w;
             twilio_calls := twilio_calls w; drive_calls := drive_calls w;
             fs := fs w; trace := trace w |}).

(** [twilio_client.messages.create(...)]: [true] when it returns. *)
Definition messages_create : M bool := fun w =>
  (Ok (twilio_create (twilio_calls w)),
   {| last_alert_time := last_alert_time w; time_calls := time_calls w;
      twilio_calls := S (twilio_calls w); drive_calls := drive_calls w;
      fs := fs w; trace := trace w |}).

Definition read_file (path : string) : M (option (list frame)) := fun w =>
  (Ok (fs w !! path), w).

Definition write_file (path : string) (content : list frame) : M unit := fun w =>
  (Ok tt, {| last_alert_time := last_alert_time w; time_calls := time_calls w;
             twilio_calls := twilio_calls w; drive_calls := drive_calls w;
             fs := <[path := content]> (fs w); trace := trace w |}).

(** The insert-and-share calls of [upload_to_drive]. *)
Definition files_create : M (option string) := fun w =>
  (Ok (drive_create (drive_calls w)),
   {| last_alert_time := last_alert_time w; time_calls := time_calls w;
      twilio_calls := twilio_calls w; drive_calls := S (drive_calls w);
      fs := fs w; trace := trace w |}).

(** *** ALERT *)

Definition send_alert (msg : message) : M unit :=
  t0 ← time;
  last ← get_last_alert_time;
  if Qltb (t0 - last)%Q ALERT_INTERVAL then mret tt
  else
    sent ← messages_create;
    if (sent : bool) then
      t ← time;
      set_last_alert_time t;;
      emit (AlertSent msg)
    else emit (AlertFailed msg).

(** *** GOOGLE DRIVE *)

Definition upload_to_drive (file_path : string) : M string :=
  media ← read_file file_path;
  match media with
  | None => emit (UploadFailed file_path);; raise UploadError
  | Some content =>
      created ← files_create;
      match created with
      | None => emit (UploadFailed file_path);; raise UploadError
      | Some id =>
          let link := "https://drive.google.com/file/d/" +:+ id +:+ "/view?usp=sharing" in
          emit (Uploaded (basename file_path) content link);;
          mret link
      end
  end.

(** *** The clip writer *)

(** [cv2.VideoWriter(path, fourcc, fps, size)] creates the file, or
    truncates the one already there. *)
Definition VideoWriter (path fourcc : string) (fps : nat) (size : nat * nat) : M writer :=
  write_file path [];;
  emit (WriterOpened path fourcc fps size);;
  mret {| w_path := path |}.

Definition writer_write (o : writer) (f : frame) : M unit :=
  content ← read_file (w_path o);
  write_file (w_path o) (default [] content ++ [f]);;
  emit (FrameWritten (w_path o) f).

Definition writer_release (o : writer) : M unit :=
  emit (WriterReleased (w_path o)).

(** *** The locals, updated one at a time *)

Definition set_frame_buffer (b : list frame) (s : locals) : locals :=
  {| frame_buffer := b; all_predictions := all_predictions s;
     crime_detected := crime_detected s; crime_frame_count := crime_frame_count s;
     out := out s; frame_count := frame_count s |}.

Definition set_all_predictions (ps : list prediction) (s : locals) : locals :=
  {| frame_buffer := frame_buffer s; all_predictions := ps;
     crime_detected := crime_detected s; crime_frame_count := crime_frame_count s;
     out := out s; frame_count := frame_count s |}.

Definition set_crime_detected (b : bool) (s : locals) : locals :=
  {| frame_buffer := frame_buffer s; all_predictions := all_predictions s;
     crime_detected := b; crime_frame_count := crime_frame_count s;
     out := out s; frame_count := frame_count s |}.

Definition set_crime_frame_count (n : nat) (s : locals) : locals :=
  {| frame_buffer := frame_buffer s; all_predictions := all_predictions s;
     crime_detected := crime_detected s; crime_frame_count := n;
     out := out s; frame_count := frame_count s |}.

Definition set_out (o : option writer) (s : locals) : locals :=
  {| frame_buffer := frame_buffer s; all_predictions := all_predictions s;
     crime_detected := crime_detected s; crime_frame_count := crime_frame_count s;
     out := o; frame_count := frame_count s |}.

Definition set_frame_count (n : nat) (s : locals) : locals :=
  {| frame_buffer := frame_buffer s; all_predictions := all_predictions s;
     crime_detected := crime_detected s; crime_frame_count := crime_frame_count s;
     out := out s; frame_count := n |}.

Definition init_locals : locals :=
  {| frame_buffer := []; all_predictions := []; crime_detected := false;
     crime_frame_count := 0; out := None; frame_count := 0 |}.

(** [deque(maxlen=...).append]: push at the back, drop the front when
    the deque is longer than [maxlen]. *)
Definition deque_append (maxlen : nat) (d : list frame) (x : frame) : list frame :=
  let d' := d ++ [x] in
  if maxlen <? length d' then tail d' else d'.

(** *** Crime detection: the test of line 131 and the two branches *)

Definition crime_label (l : string) : bool :=
  existsb (String.eqb l) ["robbery"; "shoplifting"; "stealing"].

Definition qualifies (p : prediction) : bool :=
  crime_label (lower (fst p)) && Qltb CONFIDENCE_THRESHOLD (snd p).

Definition detect_crime (frame0 : frame) (p : prediction) (s : locals) : M locals :=
  if qualifies p then
    let s := set_crime_frame_count (crime_frame_count s + 1) s in
    s ← (if (5 <=? crime_frame_count s) && negb (crime_detected s) then
           let s := set_crime_detected true s in
           o ← VideoWriter CLIP_PATH "mp4v" 20 (snd (shape frame0), fst (shape frame0));
           let s := set_out (Some o) s in
           send_alert (Warning (upper (fst p)));;
           mret s
         else mret s);
    match crime_detected (s : locals), out s with
    | true, Some o => writer_write o frame0;; mret s
    | _, _ => mret s
    end
  else
    let s := if 0 <? crime_frame_count s then set_crime_frame_count 0 s else s in
    if crime_detected s then
      let s := set_crime_detected false s in
      match out s with
      | Some o =>
          writer_release o;;
          link ← upload_to_drive CLIP_PATH;
          send_alert (Critical link);;
          mret (set_out None s)
      | None => mret s
      end
    else mret s.

(** The detector over a sequence of per-window predictions, each with
    the frame that completed its window. *)
Fixpoint run_detector (ps : list (frame * prediction)) (s : locals) : M locals :=
  match ps with
  | [] => mret s
  | fp :: rest => s' ← detect_crime (fst fp) (snd fp) s; run_detector rest s'
  end.

(** *** The frame loop *)

Definition call_predict_activity (window : list frame) : M prediction :=
  emit (Classified window);;
  match predict_activity window with
  | Some p => mret p
  | None => raise ClassifierError
  end.

(** One iteration of [while True], after a successful [cap.read()]. *)
Definition loop_body (frame0 : frame) (s : locals) : M locals :=
  let s := set_frame_count (frame_count s + 1) s in
  if negb (frame_count s mod FRAME_SKIP =? 0) then mret s
  else
    emit (Offered frame0);;
    let s := set_frame_buffer (deque_append SEQ_LENGTH (frame_buffer s) frame0) s in
    if length (frame_buffer s) =? SEQ_LENGTH then
      p ← call_predict_activity (frame_buffer s);
      let s := set_all_predictions (all_predictions s ++ [p]) s in
      detect_crime frame0 p s
    else mret s.

(** [cv2.VideoCapture]: the frames [cap.read()] yields before it
    returns [ret = False]; a capture that did not open yields none. *)
Definition VideoCapture (v : video_file frame) : list frame :=
  match v with
  | Decodable frames => frames
  | Undecodable => []
  end.

Fixpoint loop (cap : list frame) (s : locals) : M locals :=
  match cap with
  | [] => mret s
  | frame0 :: rest => s' ← loop_body frame0 s; loop rest s'
  end.

(** Lines 151-153. *)
Definition close_at_end (s : locals) : M unit :=
  match out s with
  | Some o => writer_release o
  | None => mret tt
  end.

(** *** The best prediction *)

(** [max(..., key=lambda x: x[1])] keeps its candidate unless a later
    item has a strictly greater key. *)
Fixpoint max_from (best : prediction) (rest : list prediction) : prediction :=
  match rest with
  | [] => best
  | x :: r => if Qltb (snd best) (snd x) then max_from x r else max_from best r
  end.

(** Lines 156-160. *)
Definition best_prediction (preds : list prediction) : prediction :=
  match preds with
  | [] => ("Unknown", 0%Q)
  | x :: r => max_from x r
  end.

(** *** The route *)

(** Lines 94-165, from the payload to the response.  The copy of the
    payload saved under "saved_clips" (lines 100-102) is not modelled:
    the capture is the frames OpenCV decodes from it. *)
Definition upload_video (file : option (video_file frame)) : M http_response :=
  match file with
  | None => mret (Error400 "No video uploaded")
  | Some v =>
      let cap := VideoCapture v in
      s ← loop cap init_locals;
      close_at_end s;;
      let best := best_prediction (all_predictions s) in
      mret (Json200 (fst best) (round2 (snd best)))
  end.

End Pipeline.

(** ** Reading a trace *)

Definition is_open_event {frame : Type} (e : event frame) : bool :=
  match e with WriterOpened _ _ _ _ => true | _ => false end.

Definition is_release_event {frame : Type} (e : event frame) : bool :=
  match e with WriterReleased _ => true | _ => false end.

Definition is_offer_event {frame : Type} (e : event frame) : bool :=
  match e with Offered _ => true | _ => false end.

Definition is_classify_event {frame : Type} (e : event frame) : bool :=
  match e with Classified _ => true | _ => false end.

(** How many clip writers a trace opens, and how many it releases. *)
Definition opened {frame : Type} (t : list (event frame)) : nat :=
  length (List.filter is_open_event t).

Definition released {frame : Type} (t : list (event frame)) : nat :=
  length (List.filter is_release_event t).

(** How many frames a trace pushes on the sliding window. *)
Definition offered {frame : Type} (t : list (event frame)) : nat :=
  length (List.filter is_offer_event t).

(** How many times a trace calls the classifier. *)
Definition classified {frame : Type} (t : list (event frame)) : nat :=
  length (List.filter is_classify_event t).

(** Replays the writer events of a trace, starting with a writer open or
    not: [None] as soon as a writer is opened while one is open, or
    released while none is; otherwise whether one is open at the end. *)
Fixpoint one_at_a_time {frame : Type} (open : bool) (t : list (event frame)) : option bool :=
  match t with
  | [] => Some open
  | WriterOpened _ _ _ _ :: r => if open then None else one_at_a_time true r
  | WriterReleased _ :: r => if open then one_at_a_time false r else None
  | _ :: r => one_at_a_time open r
  end.

(** The length of the run of qualifying predictions a sequence ends in. *)
Fixpoint leading_run (ps : list prediction) : nat :=
  match ps with
  | [] => 0
  | p :: r => if qualifies p then S (leading_run r) else 0
  end.

Definition consecutive (ps : list prediction) : nat := leading_run (rev ps).

(** An event the detector can cause when the disk is [disk]: nothing
    about the sliding window or the classifier, a writer opened on
    [CLIP_PATH], an upload of what [disk] holds at [CLIP_PATH]. *)
Definition clip_event {frame : Type} (disk : gmap string (list frame)) (e : event frame) : Prop :=
  match e with
  | Offered _ | Classified _ => False
  | WriterOpened path _ _ _ => path = "crime_clip.mp4"
  | Uploaded name content _ => name = "crime_clip.mp4" /\ disk !! "crime_clip.mp4" = Some content
  | UploadFailed path => path = "crime_clip.mp4"
  | _ => True
  end.

(** The paths a trace names are the constant one. *)
Definition clip_named {frame : Type} (e : event frame) : Prop :=
  match e with
  | WriterOpened path _ _ _ => path = "crime_clip.mp4"
  | Uploaded name _ _ => name = "crime_clip.mp4"
  | _ => True
  end.

(** What the detector keeps true between two predictions, [preds] being
    the predictions seen so far. *)
Definition detector_inv {frame : Type} (preds : list prediction) (s : locals frame) : Prop :=
  crime_frame_count s = consecutive preds /\
  crime_detected s = (5 <=? crime_frame_count s) /\
  (out s = None <-> crime_detected s = false).

(** A response that reports a failure of the request, not a prediction. *)
Definition is_error_response (r : result http_response) : bool :=
  match r with
  | Ok (Json200 _ _) => false
  | Ok (Error400 _) => true
  | Raise _ => true
  end.

(** The events of a trace that are visible outside the process. *)
Definition outward {frame : Type} (t : list (event frame)) : list (event frame) :=
  List.filter (fun e => negb (is_offer_event e || is_classify_event e)) t.

(** ** Worlds and collaborators to run the pipeline on *)

(** The process right after start-up: [last_alert_time = 0], nothing on
    disk. *)
Definition fresh_world {frame : Type} : world frame :=
  {| last_alert_time := 0%Q; time_calls := 0; twilio_calls := 0; drive_calls := 0;
     fs := ∅; trace := [] |}.

(** A clock that starts at 1000 s and advances [step] seconds a reading. *)
Definition ticking (step : Q) (n : nat) : Q :=
  ((1000 # 1) + inject_Z (Z.of_nat n) * step)%Q.

(** Every window is a robbery at 0.9; every collaborator succeeds. *)
Definition always_robbery (step : Q) : Collaborators nat :=
  {| shape := fun _ => (480, 640);
     predict_activity := fun _ => Some ("Robbery", (9 # 10)%Q);
     clock := ticking step;
     twilio_create := fun _ => true;
     drive_create := fun _ => Some "clip" |}.

(** The window ending in frame [n] is a robbery while [n < stop]. *)
Definition robbery_until (stop : nat) (step : Q) : Collaborators nat :=
  {| shape := fun _ => (480, 640);
     predict_activity := fun w =>
       Some (if default 0 (last w) <? stop then ("ROBBERY", (9 # 10)%Q)
             else ("walking", (8 # 10)%Q));
     clock := ticking step;
     twilio_create := fun _ => true;
     drive_create := fun _ => Some "clip" |}.

(** A classifier that raises on every window. *)
Definition failing_classifier : Collaborators nat :=
  {| shape := fun _ => (480, 640);
     predict_activity := fun _ => None;
     clock := ticking 1;
     twilio_create := fun _ => true;
     drive_create := fun _ => Some "clip" |}.

(** Five robberies in a row, on frames 80 to 100. *)
Definition five_robberies : list (nat * prediction) :=
  map (fun n => (n, ("robbery", (9 # 10)%Q))) [80; 85; 90; 95; 100].

(** The locals after four qualifying predictions in a row. *)
Definition four_counted : locals nat :=
  {| frame_buffer := []; all_predictions := []; crime_detected := false;
     crime_frame_count := 4; out := None; frame_count := 0 |}.

(** A world in which an earlier episode left a three-frame clip. *)
Definition old_clip_world : world nat :=
  {| last_alert_time := 0%Q; time_calls := 0; twilio_calls := 0; drive_calls := 0;
     fs := {[ CLIP_PATH := [1; 2; 3] ]}; trace := [] |}.

(** ** Reading the sliding window off a trace *)

(** The last [n] items of a list, oldest first. *)
Definition most_recent {A : Type} (n : nat) (l : list A) : list A :=
  drop (length l - n) l.

(** The frames a trace pushes on the window, in order. *)
Fixpoint offered_frames {frame : Type} (t : list (event frame)) : list frame :=
  match t with
  | [] => []
  | Offered f :: r => f :: offered_frames r
  | _ :: r => offered_frames r
  end.

(** Replays a trace whose frames offered so far are [seen]: every window
    handed to the classifier is the [SEQ_LENGTH] most recent frames
    offered before the call, and is full. *)
Fixpoint windows_from {frame : Type} (seen : list frame) (t : list (event frame)) : Prop :=
  match t with
  | [] => True
  | Offered f :: r => windows_from (seen ++ [f]) r
  | Classified window :: r =>
      window = most_recent SEQ_LENGTH seen /\ length window = SEQ_LENGTH /\
      windows_from seen r
  | _ :: r => windows_from seen r
  end.

(** The windows a trace hands to the classifier, in order. *)
Fixpoint classified_windows {frame : Type} (t : list (event frame)) : list (list frame) :=
  match t with
  | [] => []
  | Classified window :: r => window :: classified_windows r
  | _ :: r => classified_windows r
  end.

(** Two worlds with the same disk and the same number of uploads so far. *)
Definition same_disk {frame : Type} (w1 w2 : world frame) : Prop :=
  fs w1 = fs w2 /\ drive_calls w1 = drive_calls w2.

(** The classifier of [robbery_until], with Twilio refusing every message
    and a clock that advances 30 s a reading. *)
Definition robbery_until_unreachable (stop : nat) : Collaborators nat :=
  {| shape := fun _ => (480, 640);
     predict_activity := fun w =>
       Some (if default 0 (last w) <? stop then ("ROBBERY", (9 # 10)%Q)
             else ("walking", (8 # 10)%Q));
     clock := ticking (30 # 1);
     twilio_create := fun _ => false;
     drive_create := fun _ => Some "clip" |}.

(** The classifier of [robbery_until], with Drive refusing every upload. *)
Definition robbery_until_drive_down (stop : nat) : Collaborators nat :=
  {| shape := fun _ => (480, 640);
     predict_activity := fun w =>
       Some (if default 0 (last w) <? stop then ("ROBBERY", (9 # 10)%Q)
             else ("walking", (8 # 10)%Q));
     clock := ticking 1;
     twilio_create := fun _ => true;
     drive_create := fun _ => None |}.

(** A classifier that returns robberies until the window ends in frame
    [stop], and raises from there on. *)
Definition classifier_breaks_at (stop : nat) : Collaborators nat :=
  {| shape := fun _ => (480, 640);
     predict_activity := fun w =>
       if default 0 (last w) <? stop then Some ("robbery", (9 # 10)%Q) else None;
     clock := ticking 1;
     twilio_create := fun _ => true;
     drive_create := fun _ => Some "clip" |}.

(** ** GOOGLE DRIVE AUTH *)

(** What [google_drive_service] asks of a credentials object, and the two
    calls that can replace it: [refresh c] is the object after
    [creds.refresh(Request())], [run_local_server n] what the [n]-th
    consent flow returns; each is [None] when the call raises. *)
Class OAuth (creds : Type) : Type := {
  valid : creds -> bool;
  expired : creds -> bool;
  refresh_token : creds -> option string;
  refresh : creds -> option creds;
  run_local_server : nat -> option creds
}.

(** The file "token.pkl" ([None] while it does not exist) and the calls
    made to Google so far. *)
Record auth_state (creds : Type) : Type := {
  token_pkl : option creds;
  refreshes : nat;
  flows : nat
}.
Arguments token_pkl {creds} a.
Arguments refreshes {creds} a.
Arguments flows {creds} a.

(** The exceptions of [creds.refresh] and of the consent flow, the two
    calls made before "token.pkl" is opened for writing.  A failure of
    [pickle.load], [pickle.dump] or [build] is not modelled. *)
Inductive auth_exn : Type := RefreshError | FlowError.

(** [build("drive", "v3", credentials=creds)]. *)
Record service (creds : Type) : Type := { credentials : creds }.
Arguments credentials {creds} s.

(** Truth value of [creds.refresh_token]: a non-empty string. *)
Definition has_refresh_token {creds : Type} `{OAuth creds} (c : creds) : bool :=
  match refresh_token c with
  | Some t => negb (String.eqb t "")
  | None => false
  end.

(** [pickle.dump(creds, token)] on "token.pkl". *)
Definition dump_token {creds : Type} (c : creds) (a : auth_state creds) : auth_state creds :=
  {| token_pkl := Some c; refreshes := refreshes a; flows := flows a |}.

(** The [else] branch: the consent flow, then the dump. *)
Definition consent_flow {creds : Type} `{OAuth creds} (a : auth_state creds)
  : (auth_exn + service creds) * auth_state creds :=
  let a1 := {| token_pkl := token_pkl a; refreshes := refreshes a; flows := S (flows a) |} in
  match run_local_server (flows a) with
  | Some c => (inr {| credentials := c |}, dump_token c a1)
  | None => (inl FlowError, a1)
  end.

Definition google_drive_service {creds : Type} `{OAuth creds} (a : auth_state creds)
  : (auth_exn + service creds) * auth_state creds :=
  match token_pkl a with
  | Some c =>
      if negb (valid c) then
        if expired c && has_refresh_token c then
          let a1 := {| token_pkl := token_pkl a; refreshes := S (refreshes a);
                       flows := flows a |} in
          match refresh c with
          | Some c' => (inr {| credentials := c' |}, dump_token c' a1)
          | None => (inl RefreshError, a1)
          end
        else consent_flow a
      else (inr {| credentials := c |}, a)
  | None => consent_flow a
  end.

(** Credentials as three flags and a token; refreshing makes them valid. *)
Record flags : Type := { f_valid : bool; f_expired : bool; f_token : option string }.

Definition flag_oauth : OAuth flags :=
  {| valid := f_valid; expired := f_expired; refresh_token := f_token;
     refresh := fun c => Some {| f_valid := true; f_expired := false; f_token := f_token c |};
     run_local_server := fun _ =>
       Some {| f_valid := true; f_expired := false; f_token := Some "r" |} |}.

(** Refreshing always raises. *)
Definition flag_oauth_offline : OAuth flags :=
  {| valid := f_valid; expired := f_expired; refresh_token := f_token;
     refresh := fun _ => None;
     run_local_server := fun _ => None |}.

(** "token.pkl" holds expired credentials with a refresh token. *)
Definition stale_token : auth_state flags :=
  {| token_pkl := Some {| f_valid := false; f_expired := true; f_token := Some "r" |};
     refreshes := 0; flows := 0 |}.

(** Every window is a walk at 0.8; every collaborator succeeds. *)
Definition always_walking : Collaborators nat :=
  {| shape := fun _ => (480, 640);
     predict_activity := fun _ => Some ("walking", (8 # 10)%Q);
     clock := ticking 1;
     twilio_create := fun _ => true;
     drive_create := fun _ => Some "clip" |}.

(** ** Properties *)

Lemma Qltb_true (x y : Q) : Qltb x y = true <-> (x < y)%Q.
Proof.
  unfold Qltb. rewrite negb_true_iff, <- not_true_iff_false, Qle_bool_iff.
  split; [apply Qnot_le_lt | apply Qlt_not_le].
Qed.

Lemma Qltb_false (x y : Q) : Qltb x y = false <-> (y <= x)%Q.
Proof.
  unfold Qltb. rewrite negb_false_iff. apply Qle_bool_iff.
Qed.

Ltac run_monad :=
  unfold mbind, M_bind, mret, M_ret, raise, emit, time, get_last_alert_time,
    set_last_alert_time, messages_create, read_file, write_file, files_create in *;
  cbn [fst snd last_alert_time time_calls twilio_calls drive_calls fs trace] in *.

Ltac on_locals :=
  cbn [frame_buffer all_predictions crime_detected crime_frame_count out frame_count
       set_frame_buffer set_all_predictions set_crime_detected set_crime_frame_count
       set_out set_frame_count init_locals fst snd] in *.

Section AlertProperties.
Context {frame : Type} `{C : Collaborators frame}.

Implicit Types (w : world frame) (msg : message).

(** Inside the interval the call returns before it reaches Twilio. *)
Lemma send_alert_dropped w msg :
  (clock (time_calls w) - last_alert_time w < ALERT_INTERVAL)%Q ->
  send_alert msg w =
    (Ok tt, {| last_alert_time := last_alert_time w; time_calls := S (time_calls w);
               twilio_calls := twilio_calls w; drive_calls := drive_calls w;
               fs := fs w; trace := trace w |}).
Proof.
  intros H%Qltb_true. unfold send_alert. run_monad. now rewrite H.
Qed.

Lemma send_alert_delivered w msg :
  (ALERT_INTERVAL <= clock (time_calls w) - last_alert_time w)%Q ->
  twilio_create (twilio_calls w) = true ->
  send_alert msg w =
    (Ok tt, {| last_alert_time := clock (S (time_calls w));
               time_calls := S (S (time_calls w));
               twilio_calls := S (twilio_calls w); drive_calls := drive_calls w;
               fs := fs w; trace := trace w ++ [AlertSent msg] |}).
Proof.
  intros H%Qltb_false Hs. unfold send_alert. run_monad.
  rewrite H. cbn. now rewrite Hs.
Qed.

Lemma send_alert_failed w msg :
  (ALERT_INTERVAL <= clock (time_calls w) - last_alert_time w)%Q ->
  twilio_create (twilio_calls w) = false ->
  send_alert msg w =
    (Ok tt, {| last_alert_time := last_alert_time w; time_calls := S (time_calls w);
               twilio_calls := S (twilio_calls w); drive_calls := drive_calls w;
               fs := fs w; trace := trace w ++ [AlertFailed msg] |}).
Proof.
  intros H%Qltb_false Hs. unfold send_alert. run_monad.
  rewrite H. cbn. now rewrite Hs.
Qed.

(** The three ways a call can go. *)
Lemma send_alert_cases w msg :
  ((clock (time_calls w) - last_alert_time w < ALERT_INTERVAL)%Q /\
   trace (snd (send_alert msg w)) = trace w /\
   twilio_calls (snd (send_alert msg w)) = twilio_calls w /\
   last_alert_time (snd (send_alert msg w)) = last_alert_time w) \/
  ((ALERT_INTERVAL <= clock (time_calls w) - last_alert_time w)%Q /\
   twilio_create (twilio_calls w) = true /\
   trace (snd (send_alert msg w)) = trace w ++ [AlertSent msg] /\
   twilio_calls (snd (send_alert msg w)) = S (twilio_calls w) /\
   last_alert_time (snd (send_alert msg w)) = clock (S (time_calls w))) \/
  ((ALERT_INTERVAL <= clock (time_calls w) - last_alert_time w)%Q /\
   twilio_create (twilio_calls w) = false /\
   trace (snd (send_alert msg w)) = trace w ++ [AlertFailed msg] /\
   twilio_calls (snd (send_alert msg w)) = S (twilio_calls w) /\
   last_alert_time (snd (send_alert msg w)) = last_alert_time w).
Proof.
  destruct (Qlt_le_dec (clock (time_calls w) - last_alert_time w) ALERT_INTERVAL) as [Hlt | Hge].
  - left. rewrite (send_alert_dropped w msg Hlt). auto.
  - right. destruct (twilio_create (twilio_calls w)) eqn:Hs.
    + left. rewrite (send_alert_delivered w msg Hge Hs). auto.
    + right. rewrite (send_alert_failed w msg Hge Hs). auto.
Qed.

(** C5: after a call of [send_alert] that sent its message, a second
    call whose clock reading is less than [ALERT_INTERVAL] past the
    recorded [last_alert_time] does not reach Twilio and changes neither
    the trace nor the timestamp, so exactly one send happened; a second
    call at least [ALERT_INTERVAL] past it reaches Twilio as well, and
    its message is sent when Twilio accepts it.  A call whose send
    failed leaves [last_alert_time] as it was. *)
Theorem send_alert_throttle w (m1 m2 : message) :
  let w1 := snd (send_alert m1 w) in
  let w2 := snd (send_alert m2 w1) in
  (trace w1 = trace w ++ [AlertSent m1] ->
     twilio_calls w1 = S (twilio_calls w) /\
     ((clock (time_calls w1) - last_alert_time w1 < ALERT_INTERVAL)%Q ->
        trace w2 = trace w ++ [AlertSent m1] /\
        twilio_calls w2 = S (twilio_calls w) /\
        last_alert_time w2 = last_alert_time w1 /\
        fs w2 = fs w1) /\
     ((ALERT_INTERVAL <= clock (time_calls w1) - last_alert_time w1)%Q ->
        twilio_calls w2 = S (S (twilio_calls w)) /\
        trace w2 = trace w ++ [AlertSent m1;
                               if twilio_create (twilio_calls w1)
                               then AlertSent m2 else AlertFailed m2])) /\
  (trace w1 = trace w ++ [AlertFailed m1] ->
     last_alert_time w1 = last_alert_time w).
Proof.
  intros w1 w2. split.
  - intros Hsent.
    assert (Hcalls : twilio_calls w1 = S (twilio_calls w)).
    { subst w1.
      destruct (send_alert_cases w m1) as [(_ & Ht & _) | [(_ & _ & _ & Hc & _) | (_ & _ & Ht & _)]];
        [ | exact Hc | ]; rewrite Ht in Hsent.
      - apply (f_equal (@length _)) in Hsent. rewrite length_app in Hsent. simpl in Hsent. lia.
      - apply app_inv_head in Hsent. discriminate. }
    split; [exact Hcalls |]. split.
    + intros Hlt. subst w2. rewrite (send_alert_dropped w1 m2 Hlt). simpl.
      rewrite Hcalls. auto.
    + intros Hge. subst w2.
      destruct (twilio_create (twilio_calls w1)) eqn:Hs.
      * rewrite (send_alert_delivered w1 m2 Hge Hs). simpl.
        rewrite Hcalls, Hsent, <- app_assoc. auto.
      * rewrite (send_alert_failed w1 m2 Hge Hs). simpl.
        rewrite Hcalls, Hsent, <- app_assoc. auto.
  - intros Hfail. subst w1.
    destruct (send_alert_cases w m1) as [(_ & _ & _ & Hl) | [(_ & _ & Ht & _) | (_ & _ & _ & _ & Hl)]];
      [exact Hl | | exact Hl].
    rewrite Ht in Hfail. apply app_inv_head in Hfail. discriminate.
Qed.

End AlertProperties.

Section StepProperties.
Context {frame : Type} `{C : Collaborators frame}.

Implicit Types (w : world frame) (s : locals frame) (f : frame) (p : prediction).

(** [send_alert] never raises, and touches neither the disk nor Drive. *)
Lemma send_alert_total w msg :
  send_alert msg w = (Ok tt, snd (send_alert msg w)).
Proof.
  destruct (Qlt_le_dec (clock (time_calls w) - last_alert_time w) ALERT_INTERVAL) as [Hlt | Hge].
  - now rewrite (send_alert_dropped w msg Hlt).
  - destruct (twilio_create (twilio_calls w)) eqn:Hs.
    + now rewrite (send_alert_delivered w msg Hge Hs).
    + now rewrite (send_alert_failed w msg Hge Hs).
Qed.

Lemma send_alert_frame w msg :
  fs (snd (send_alert msg w)) = fs w /\
  drive_calls (snd (send_alert msg w)) = drive_calls w /\
  (trace (snd (send_alert msg w)) = trace w \/
   trace (snd (send_alert msg w)) = trace w ++ [AlertSent msg] \/
   trace (snd (send_alert msg w)) = trace w ++ [AlertFailed msg]).
Proof.
  destruct (Qlt_le_dec (clock (time_calls w) - last_alert_time w) ALERT_INTERVAL) as [Hlt | Hge].
  - rewrite (send_alert_dropped w msg Hlt). cbn. auto.
  - destruct (twilio_create (twilio_calls w)) eqn:Hs.
    + rewrite (send_alert_delivered w msg Hge Hs). cbn. auto.
    + rewrite (send_alert_failed w msg Hge Hs). cbn. auto.
Qed.

Lemma upload_to_drive_ok w path content id :
  fs w !! path = Some content ->
  drive_create (drive_calls w) = Some id ->
  upload_to_drive path w =
    (Ok ("https://drive.google.com/file/d/" +:+ id +:+ "/view?usp=sharing"),
     {| last_alert_time := last_alert_time w; time_calls := time_calls w;
        twilio_calls := twilio_calls w; drive_calls := S (drive_calls w);
        fs := fs w;
        trace := trace w ++ [Uploaded (basename path) content
                               ("https://drive.google.com/file/d/" +:+ id +:+ "/view?usp=sharing")] |}).
Proof.
  intros Hf Hd. unfold upload_to_drive. run_monad. rewrite Hf. cbn. now rewrite Hd.
Qed.

Lemma upload_to_drive_cases w path :
  (exists content link,
      fs w !! path = Some content /\
      fst (upload_to_drive path w) = Ok link /\
      trace (snd (upload_to_drive path w)) =
        trace w ++ [Uploaded (basename path) content link]) \/
  (fst (upload_to_drive path w) = Raise UploadError /\
   trace (snd (upload_to_drive path w)) = trace w ++ [UploadFailed path]).
Proof.
  unfold upload_to_drive. run_monad.
  destruct (fs w !! path) as [content |] eqn:Hf; cbn; [| now right].
  destruct (drive_create (drive_calls w)) as [id |] eqn:Hd; cbn; [| now right].
  left. eauto.
Qed.

(** The fifth qualifying prediction in a row: the writer is opened on
    the constant path, the warning goes to [send_alert], the frame is
    written. *)
Lemma detect_crime_trigger f p s w :
  qualifies p = true ->
  5 <= crime_frame_count s + 1 ->
  crime_detected s = false ->
  let wo := {| last_alert_time := last_alert_time w; time_calls := time_calls w;
               twilio_calls := twilio_calls w; drive_calls := drive_calls w;
               fs := <[CLIP_PATH := []]> (fs w);
               trace := trace w ++ [WriterOpened CLIP_PATH "mp4v" 20
                                      (snd (shape f), fst (shape f))] |} in
  let wa := snd (send_alert (Warning (upper (fst p))) wo) in
  detect_crime f p s w =
    (Ok (set_out (Some {| w_path := CLIP_PATH |})
           (set_crime_detected true
              (set_crime_frame_count (crime_frame_count s + 1) s))),
     {| last_alert_time := last_alert_time wa; time_calls := time_calls wa;
        twilio_calls := twilio_calls wa; drive_calls := drive_calls wa;
        fs := <[CLIP_PATH := [f]]> (fs w);
        trace := trace wa ++ [FrameWritten CLIP_PATH f] |}).
Proof.
  intros Hq Hc%Nat.leb_le Hd wo wa. unfold detect_crime. rewrite Hq.
  cbn [crime_frame_count set_crime_frame_count crime_detected].
  rewrite Hc, Hd. cbn [negb andb].
  unfold VideoWriter, writer_write. run_monad. fold wo.
  rewrite (send_alert_total wo). fold wa. cbn.
  destruct (send_alert_frame wo (Warning (upper (fst p)))) as (Hfs & _ & _).
  fold wa in Hfs. rewrite Hfs. cbn.
  rewrite lookup_insert_eq, insert_insert_eq. reflexivity.
Qed.

(** A qualifying prediction while recording: the frame is written. *)
Lemma detect_crime_recording f p s w o :
  qualifies p = true ->
  crime_detected s = true ->
  out s = Some o ->
  detect_crime f p s w =
    (Ok (set_crime_frame_count (crime_frame_count s + 1) s),
     {| last_alert_time := last_alert_time w; time_calls := time_calls w;
        twilio_calls := twilio_calls w; drive_calls := drive_calls w;
        fs := <[w_path o := default [] (fs w !! w_path o) ++ [f]]> (fs w);
        trace := trace w ++ [FrameWritten (w_path o) f] |}).
Proof.
  intros Hq Hd Ho. unfold detect_crime. rewrite Hq.
  cbn [crime_frame_count set_crime_frame_count crime_detected].
  rewrite Hd, andb_false_r. unfold writer_write. run_monad.
  cbn. rewrite Hd, Ho. reflexivity.
Qed.

(** A qualifying prediction before the fifth: only the counter moves. *)
Lemma detect_crime_accumulating f p s w :
  qualifies p = true ->
  crime_frame_count s + 1 < 5 ->
  crime_detected s = false ->
  detect_crime f p s w =
    (Ok (set_crime_frame_count (crime_frame_count s + 1) s), w).
Proof.
  intros Hq Hc%Nat.leb_gt Hd. unfold detect_crime. rewrite Hq.
  cbn [crime_frame_count set_crime_frame_count crime_detected].
  rewrite Hc, Hd. run_monad. cbn. rewrite Hd. reflexivity.
Qed.

(** A non-qualifying prediction outside a recording: the counter is 0. *)
Lemma detect_crime_idle f p s w :
  qualifies p = false ->
  crime_detected s = false ->
  detect_crime f p s w =
    (Ok (if 0 <? crime_frame_count s then set_crime_frame_count 0 s else s), w).
Proof.
  intros Hq Hd. unfold detect_crime. rewrite Hq.
  destruct (0 <? crime_frame_count s); cbn; rewrite Hd; reflexivity.
Qed.

(** A non-qualifying prediction while recording: release, upload,
    confirmation. *)
Lemma detect_crime_run_end f p s w o :
  qualifies p = false ->
  crime_detected s = true ->
  out s = Some o ->
  let wr := {| last_alert_time := last_alert_time w; time_calls := time_calls w;
               twilio_calls := twilio_calls w; drive_calls := drive_calls w;
               fs := fs w; trace := trace w ++ [WriterReleased (w_path o)] |} in
  detect_crime f p s w =
    match upload_to_drive CLIP_PATH wr with
    | (Ok link, wu) =>
        (Ok (set_out None (set_crime_detected false (set_crime_frame_count 0 s))),
         snd (send_alert (Critical link) wu))
    | (Raise e, wu) => (Raise e, wu)
    end.
Proof.
  intros Hq Hd Ho wr. unfold detect_crime. rewrite Hq.
  assert (Hs : (if 0 <? crime_frame_count s then set_crime_frame_count 0 s else s)
               = set_crime_frame_count 0 s \/
               (crime_frame_count s = 0 /\
                (if 0 <? crime_frame_count s then set_crime_frame_count 0 s else s) = s)).
  { destruct (0 <? crime_frame_count s) eqn:E; [now left | right].
    apply Nat.ltb_ge in E. split; [lia | reflexivity]. }
  destruct Hs as [-> | [Hz ->]].
  - cbn. rewrite Hd, Ho. unfold writer_release. run_monad. fold wr.
    destruct (upload_to_drive CLIP_PATH wr) as [[link | e] wu]; [| reflexivity].
    rewrite (send_alert_total wu). reflexivity.
  - rewrite Hd. cbn. rewrite Ho. unfold writer_release. run_monad. fold wr.
    destruct (upload_to_drive CLIP_PATH wr) as [[link | e] wu]; [| reflexivity].
    rewrite (send_alert_total wu). cbn. destruct s; cbn in *. now subst.
Qed.

(** The two states the detector never reaches: flagged without a
    writer. *)
Lemma detect_crime_flag_only f p s w :
  qualifies p = true ->
  crime_detected s = true ->
  out s = None ->
  detect_crime f p s w =
    (Ok (set_crime_frame_count (crime_frame_count s + 1) s), w).
Proof.
  intros Hq Hd Ho. unfold detect_crime. rewrite Hq.
  cbn [crime_frame_count set_crime_frame_count crime_detected].
  rewrite Hd, andb_false_r. run_monad. cbn. rewrite Hd, Ho. reflexivity.
Qed.

Lemma detect_crime_flag_reset f p s w :
  qualifies p = false ->
  crime_detected s = true ->
  out s = None ->
  detect_crime f p s w =
    (Ok (set_crime_detected false
           (if 0 <? crime_frame_count s then set_crime_frame_count 0 s else s)), w).
Proof.
  intros Hq Hd Ho. unfold detect_crime. rewrite Hq.
  destruct (0 <? crime_frame_count s); cbn; rewrite Hd; cbn; rewrite Ho; reflexivity.
Qed.

(** Whatever the state: the detector leaves the window, the predictions
    and the frame counter alone, causes only clip events, and when it
    opens a writer the file at [CLIP_PATH] holds the current frame and
    nothing else. *)
Lemma detect_crime_events f p s w :
  exists d,
    trace (snd (detect_crime f p s w)) = trace w ++ d /\
    Forall (clip_event (fs w)) d /\
    (opened d = 1 -> fs (snd (detect_crime f p s w)) !! CLIP_PATH = Some [f]) /\
    forall s', fst (detect_crime f p s w) = Ok s' ->
      frame_buffer s' = frame_buffer s /\
      all_predictions s' = all_predictions s /\
      frame_count s' = frame_count s.
Proof.
  destruct (qualifies p) eqn:Hq; destruct (crime_detected s) eqn:Hd.
  - destruct (out s) as [o |] eqn:Ho.
    + rewrite (detect_crime_recording f p s w o Hq Hd Ho). cbn [fst snd trace fs].
      exists [FrameWritten (w_path o) f]. split; [reflexivity |].
      split; [repeat constructor |]. split; [discriminate |].
      intros s' [= <-]. now on_locals.
    + rewrite (detect_crime_flag_only f p s w Hq Hd Ho). cbn [fst snd].
      exists []. split; [now rewrite app_nil_r |].
      split; [constructor |]. split; [discriminate |].
      intros s' [= <-]. now on_locals.
  - destruct (le_lt_dec 5 (crime_frame_count s + 1)) as [H5 | H5].
    + pose proof (detect_crime_trigger f p s w Hq H5 Hd) as Hstep.
      cbv zeta in Hstep. rewrite Hstep. cbn [fst snd trace fs].
      match goal with |- context [send_alert ?m ?wo] =>
        destruct (send_alert_frame wo m) as (_ & _ & [Ht | [Ht | Ht]]); rewrite Ht end;
        cbn [trace]; rewrite <- !app_assoc; eexists; (split; [reflexivity |]);
        (split; [repeat constructor |]);
        (split; [intros _; apply lookup_insert_eq |]);
        intros s' [= <-]; now on_locals.
    + rewrite (detect_crime_accumulating f p s w Hq H5 Hd). cbn [fst snd].
      exists []. split; [now rewrite app_nil_r |].
      split; [constructor |]. split; [discriminate |].
      intros s' [= <-]. now on_locals.
  - destruct (out s) as [o |] eqn:Ho.
    + rewrite (detect_crime_run_end f p s w o Hq Hd Ho). cbv zeta.
      match goal with |- context [upload_to_drive ?path ?wr] =>
        destruct (upload_to_drive_cases wr path) as [(content & link & Hf & Hr & Ht) | (Hr & Ht)];
        destruct (upload_to_drive path wr) as [r wu] end; cbn [fst snd trace fs] in *; subst r.
      * destruct (send_alert_frame wu (Critical link)) as (_ & _ & [Ha | [Ha | Ha]]);
          cbn [fst snd]; rewrite Ha, Ht; rewrite <- ?app_assoc;
          eexists; (split; [reflexivity |]);
          (split; [repeat constructor; assumption |]);
          (split; [discriminate |]);
          intros s' [= <-]; now on_locals.
      * cbn [fst snd]. rewrite Ht, <- app_assoc. eexists. split; [reflexivity |].
        split; [repeat constructor |]. split; [discriminate |]. intros s' [=].
    + rewrite (detect_crime_flag_reset f p s w Hq Hd Ho). cbn [fst snd].
      exists []. split; [now rewrite app_nil_r |].
      split; [constructor |]. split; [discriminate |].
      intros s' [= <-]. destruct (0 <? crime_frame_count s); now on_locals.
  - rewrite (detect_crime_idle f p s w Hq Hd). cbn [fst snd].
    exists []. split; [now rewrite app_nil_r |].
    split; [constructor |]. split; [discriminate |].
    intros s' [= <-]. destruct (0 <? crime_frame_count s); now on_locals.
Qed.

End StepProperties.

Section DetectorProperties.
Context {frame : Type} `{C : Collaborators frame}.

Implicit Types (w : world frame) (s : locals frame) (f : frame) (p : prediction).
Implicit Types (ps : list (frame * prediction)) (t d : list (event frame)).

Lemma qualifies_spec (l : string) (c : Q) :
  qualifies (l, c) = true <->
  (lower l = "robbery" \/ lower l = "shoplifting" \/ lower l = "stealing") /\
  (CONFIDENCE_THRESHOLD < c)%Q.
Proof.
  unfold qualifies, crime_label. cbn [fst snd existsb].
  rewrite andb_true_iff, Qltb_true, !orb_true_iff, !String.eqb_eq.
  intuition congruence.
Qed.

Lemma consecutive_snoc (preds : list prediction) p :
  consecutive (preds ++ [p]) = if qualifies p then S (consecutive preds) else 0.
Proof.
  unfold consecutive. rewrite rev_app_distr. reflexivity.
Qed.

Lemma opened_app t d : opened (t ++ d) = opened t + opened d.
Proof. unfold opened. now rewrite List.filter_app, length_app. Qed.

Lemma released_app t d : released (t ++ d) = released t + released d.
Proof. unfold released. now rewrite List.filter_app, length_app. Qed.

Lemma one_at_a_time_app t d (b : bool) :
  one_at_a_time b (t ++ d) =
    match one_at_a_time b t with
    | Some b' => one_at_a_time b' d
    | None => None
    end.
Proof.
  revert b. induction t as [| e t IH]; intros b; [reflexivity |].
  destruct e; cbn; try apply IH; destruct b; auto.
Qed.

Lemma detector_step f p s w :
  crime_detected s = (5 <=? crime_frame_count s) ->
  (out s = None <-> crime_detected s = false) ->
  exists d,
    trace (snd (detect_crime f p s w)) = trace w ++ d /\
    opened d = (if qualifies p && (crime_frame_count s =? 4) then 1 else 0) /\
    released d = (if negb (qualifies p) && crime_detected s then 1 else 0) /\
    one_at_a_time (crime_detected s) d = Some (qualifies p && (4 <=? crime_frame_count s)) /\
    forall s', fst (detect_crime f p s w) = Ok s' ->
      crime_frame_count s' = (if qualifies p then S (crime_frame_count s) else 0) /\
      crime_detected s' = (5 <=? crime_frame_count s') /\
      (out s' = None <-> crime_detected s' = false).
Proof.
  intros Hdet Hout.
  destruct (qualifies p) eqn:Hq; destruct (crime_detected s) eqn:Hd.
  - (* recording goes on *)
    symmetry in Hdet. apply Nat.leb_le in Hdet.
    destruct (out s) as [o |] eqn:Ho; [| now destruct Hout as [Hout _]; specialize (Hout eq_refl)].
    replace (crime_frame_count s =? 4) with false by (symmetry; apply Nat.eqb_neq; lia).
    replace (4 <=? crime_frame_count s) with true by (symmetry; apply Nat.leb_le; lia).
    rewrite (detect_crime_recording f p s w o Hq Hd Ho). cbn [fst snd trace].
    exists [FrameWritten (w_path o) f]. split; [reflexivity |].
    do 3 (split; [reflexivity |]). intros s' [= <-]. on_locals. rewrite Hd, Ho.
    split; [lia |]. split; [symmetry; apply Nat.leb_le; lia |]. split; discriminate.
  - symmetry in Hdet. apply Nat.leb_gt in Hdet.
    destruct (Nat.eq_dec (crime_frame_count s) 4) as [H4 | H4].
    + (* the run reaches five *)
      pose proof (detect_crime_trigger f p s w Hq ltac:(lia) Hd) as Hstep.
      cbv zeta in Hstep. rewrite Hstep. cbn [fst snd trace].
      match goal with |- context [send_alert ?m ?wo] =>
        destruct (send_alert_frame wo m) as (_ & _ & [Ht | [Ht | Ht]]); rewrite Ht end;
        cbn [trace]; rewrite <- !app_assoc; eexists; (split; [reflexivity |]);
        rewrite H4; cbn; (do 3 (split; [reflexivity |])); intros s' [= <-]; cbn;
        (split; [reflexivity |]); (split; [reflexivity |]); split; discriminate.
    + (* still accumulating *)
      replace (crime_frame_count s =? 4) with false by (symmetry; apply Nat.eqb_neq; lia).
      replace (4 <=? crime_frame_count s) with false by (symmetry; apply Nat.leb_gt; lia).
      rewrite (detect_crime_accumulating f p s w Hq ltac:(lia) Hd). cbn [fst snd trace].
      exists []. split; [now rewrite app_nil_r |].
      do 3 (split; [reflexivity |]). intros s' [= <-]. on_locals. rewrite Hd.
      split; [lia |]. split; [symmetry; apply Nat.leb_gt; lia | exact Hout].
  - (* the run ends *)
    destruct (out s) as [o |] eqn:Ho; [| now destruct Hout as [Hout _]; specialize (Hout eq_refl)].
    rewrite (detect_crime_run_end f p s w o Hq Hd Ho). cbv zeta.
    match goal with |- context [upload_to_drive ?path ?wr] =>
      destruct (upload_to_drive_cases wr path) as [(content & link & _ & Hr & Ht) | (Hr & Ht)];
      destruct (upload_to_drive path wr) as [r wu] end; cbn [fst snd trace] in *; subst r.
    + destruct (send_alert_frame wu (Critical link)) as (_ & _ & [Ha | [Ha | Ha]]);
        cbn [fst snd]; rewrite Ha, Ht; rewrite <- ?app_assoc;
        eexists; (split; [reflexivity |]); cbn; (do 3 (split; [reflexivity |]));
        intros s' [= <-]; cbn; tauto.
    + cbn [fst snd]. rewrite Ht, <- app_assoc. eexists. split; [reflexivity |].
      cbn. do 3 (split; [reflexivity |]). intros s' [=].
  - (* idle *)
    rewrite (detect_crime_idle f p s w Hq Hd). cbn [fst snd trace].
    exists []. split; [now rewrite app_nil_r |].
    do 3 (split; [reflexivity |]). intros s' [= <-].
    destruct (0 <? crime_frame_count s) eqn:E; on_locals; rewrite ?Hd.
    + split; [reflexivity |]. split; [reflexivity | exact Hout].
    + apply Nat.ltb_ge in E. split; [lia |].
      split; [symmetry; apply Nat.leb_gt; lia | exact Hout].
Qed.

Lemma run_detector_inv ps : forall (preds : list prediction) s w st w',
  detector_inv preds s ->
  run_detector ps s w = (Ok st, w') ->
  detector_inv (preds ++ map snd ps) st /\
  exists d, trace w' = trace w ++ d /\
            one_at_a_time (crime_detected s) d = Some (crime_detected st).
Proof.
  induction ps as [| [f p] ps IH]; intros preds s w st w' Hinv Hrun.
  - injection Hrun as <- <-. cbn [map]. rewrite !app_nil_r.
    split; [exact Hinv |]. exists []. now rewrite app_nil_r.
  - cbn [run_detector fst snd] in Hrun. unfold mbind, M_bind in Hrun.
    destruct Hinv as (Hcount & Hdet & Hout).
    destruct (detector_step f p s w Hdet Hout) as (d1 & Ht1 & _ & _ & Hone & Hnext).
    destruct (detect_crime f p s w) as [[s1 | e] w1]; [| discriminate].
    cbn [fst snd] in *. destruct (Hnext s1 eq_refl) as (Hc1 & Hd1 & Ho1).
    assert (Hinv1 : detector_inv (preds ++ [p]) s1).
    { split; [| now split]. rewrite Hc1, consecutive_snoc, Hcount. reflexivity. }
    destruct (IH _ _ _ _ _ Hinv1 Hrun) as (Hinv' & d2 & Ht2 & Hone2).
    split.
    + rewrite <- app_assoc in Hinv'. exact Hinv'.
    + exists (d1 ++ d2). split; [now rewrite Ht2, Ht1, app_assoc |].
      rewrite one_at_a_time_app, Hone.
      replace (qualifies p && (4 <=? crime_frame_count s)) with (crime_detected s1);
        [exact Hone2 |].
      rewrite Hd1, Hc1. destruct (qualifies p); reflexivity.
Qed.

Lemma init_locals_inv : detector_inv (frame := frame) [] init_locals.
Proof. repeat split; reflexivity. Qed.

Lemma close_at_end_trace s w :
  close_at_end s w =
    (Ok tt, {| last_alert_time := last_alert_time w; time_calls := time_calls w;
               twilio_calls := twilio_calls w; drive_calls := drive_calls w;
               fs := fs w;
               trace := trace w ++ match out s with
                                   | Some o => [WriterReleased (w_path o)]
                                   | None => []
                                   end |}).
Proof.
  unfold close_at_end. destruct (out s) as [o |]; [reflexivity |].
  rewrite app_nil_r. now destruct w.
Qed.

(** C1: over any sequence of per-window predictions the detector has
    processed, the counter is the length of the run of qualifying
    predictions the sequence ends in (so 0 after a non-qualifying one),
    a recording is open exactly when that run has reached 5, the next
    prediction opens a writer exactly when it is the fifth of its run
    and releases one exactly when it does not qualify and a recording
    is open, no writer is ever opened while one is open, and after the
    close at stream end none is open.  A prediction qualifies when its
    lower-cased label is robbery, shoplifting or stealing and its
    confidence is above [CONFIDENCE_THRESHOLD]. *)
Theorem crime_run_detector ps w st w' :
  run_detector ps init_locals w = (Ok st, w') ->
  let preds := map snd ps in
  (forall l c, qualifies (l, c) = true <->
     (lower l = "robbery" \/ lower l = "shoplifting" \/ lower l = "stealing") /\
     (CONFIDENCE_THRESHOLD < c)%Q) /\
  crime_frame_count st = consecutive preds /\
  crime_detected st = (5 <=? consecutive preds) /\
  (is_Some (out st) <-> crime_detected st = true) /\
  (exists d, trace w' = trace w ++ d /\
             one_at_a_time false d = Some (crime_detected st)) /\
  (forall f p, exists d,
      trace (snd (detect_crime f p st w')) = trace w' ++ d /\
      opened d = (if consecutive (preds ++ [p]) =? 5 then 1 else 0) /\
      released d = (if negb (qualifies p) && (5 <=? consecutive preds) then 1 else 0) /\
      forall st', fst (detect_crime f p st w') = Ok st' ->
                  crime_frame_count st' = consecutive (preds ++ [p])) /\
  (exists d, trace (snd (close_at_end st w')) = trace w ++ d /\
             one_at_a_time false d = Some false).
Proof.
  intros Hrun preds.
  destruct (run_detector_inv ps [] init_locals w st w' init_locals_inv Hrun)
    as ((Hcount & Hdet & Hout) & d & Ht & Hone).
  cbn [app] in Hcount. fold preds in Hcount. cbn [crime_detected init_locals] in Hone.
  split; [exact qualifies_spec |].
  split; [exact Hcount |].
  split; [now rewrite Hdet, Hcount |].
  split.
  { rewrite <- not_eq_None_Some, Hout. now destruct (crime_detected st). }
  split; [now exists d |].
  split.
  - intros f p.
    destruct (detector_step f p st w' Hdet Hout) as (d1 & Ht1 & Hop & Hrel & _ & Hnext).
    exists d1. split; [exact Ht1 |].
    rewrite consecutive_snoc, <- Hcount.
    split; [| split].
    + rewrite Hop. now destruct (qualifies p).
    + now rewrite Hrel, Hdet.
    + intros st' Hst'. now destruct (Hnext st' Hst') as (-> & _).
  - rewrite close_at_end_trace. cbn [snd trace].
    exists (d ++ match out st with Some o => [WriterReleased (w_path o)] | None => [] end).
    split; [now rewrite Ht, app_assoc |].
    rewrite one_at_a_time_app, Hone.
    destruct (out st) as [o |] eqn:Ho.
    + destruct (crime_detected st); [reflexivity |].
      destruct Hout as [_ Hout]. now specialize (Hout eq_refl).
    + destruct Hout as [Hout _]. now rewrite (Hout eq_refl).
Qed.

End DetectorProperties.

Section EpisodeProperties.
Context {frame : Type} `{C : Collaborators frame}.

Implicit Types (w : world frame) (s : locals frame) (f : frame) (p : prediction).
Implicit Types (ps qs : list (frame * prediction)).

Lemma run_detector_app ps qs s w :
  run_detector (ps ++ qs) s w =
    match run_detector ps s w with
    | (Ok s1, w1) => run_detector qs s1 w1
    | (Raise e, w1) => (Raise e, w1)
    end.
Proof.
  revert s w. induction ps as [| fp ps IH]; intros s w; [reflexivity |].
  cbn [app run_detector]. unfold mbind, M_bind.
  destruct (detect_crime (fst fp) (snd fp) s w) as [[s1 | e] w1]; [apply IH | reflexivity].
Qed.

(** Qualifying predictions while recording only append frames to the
    clip: no clock reading, no alert, no upload. *)
Lemma run_detector_recording qs : forall s w content,
  Forall (fun fp => qualifies (snd fp) = true) qs ->
  crime_detected s = true ->
  out s = Some {| w_path := CLIP_PATH |} ->
  fs w !! CLIP_PATH = Some content ->
  run_detector qs s w =
    (Ok (set_crime_frame_count (crime_frame_count s + length qs) s),
     {| last_alert_time := last_alert_time w; time_calls := time_calls w;
        twilio_calls := twilio_calls w; drive_calls := drive_calls w;
        fs := <[CLIP_PATH := content ++ map fst qs]> (fs w);
        trace := trace w ++ map (FrameWritten CLIP_PATH) (map fst qs) |}).
Proof.
  induction qs as [| [f p] qs IH]; intros s w content Hqs Hd Ho Hf.
  - cbn [run_detector map length]. rewrite !app_nil_r, Nat.add_0_r, (insert_id _ _ _ Hf).
    destruct s, w; reflexivity.
  - apply Forall_cons in Hqs as [Hq Hqs]. cbn [snd] in Hq.
    cbn [run_detector fst snd]. unfold mbind, M_bind.
    rewrite (detect_crime_recording f p s w _ Hq Hd Ho). cbn [w_path].
    rewrite Hf. cbn [default].
    rewrite (IH _ _ (content ++ [f])); [| exact Hqs | exact Hd | exact Ho
                                        | cbn [fs]; apply lookup_insert_eq].
    cbn [last_alert_time time_calls twilio_calls drive_calls fs trace map length
         fst crime_frame_count set_crime_frame_count].
    rewrite insert_insert_eq, <- !app_assoc. cbn [app].
    replace (crime_frame_count s + 1 + length qs) with (crime_frame_count s + S (length qs)) by lia.
    reflexivity.
Qed.

(** C9, as the code has it: an episode whose warning passed the throttle
    and was accepted by Twilio, that goes on through any number of
    qualifying predictions and ends on a non-qualifying one while the
    clock, read by the confirmation's [send_alert] once the writer is
    released and the upload has returned, is still less than
    [ALERT_INTERVAL] past the timestamp the warning left: the clip is
    released and uploaded, and the confirmation never reaches Twilio.
    What is compared is that reading, not the time the run ended. *)
Theorem short_run_confirmation_dropped f0 p0 qs f p s w id :
  qualifies p0 = true ->
  5 <= crime_frame_count s + 1 ->
  crime_detected s = false ->
  (ALERT_INTERVAL <= clock (time_calls w) - last_alert_time w)%Q ->
  twilio_create (twilio_calls w) = true ->
  Forall (fun fp => qualifies (snd fp) = true) qs ->
  qualifies p = false ->
  drive_create (drive_calls w) = Some id ->
  (clock (S (S (time_calls w))) - clock (S (time_calls w)) < ALERT_INTERVAL)%Q ->
  let link := "https://drive.google.com/file/d/" +:+ id +:+ "/view?usp=sharing" in
  let episode :=
    [WriterOpened CLIP_PATH "mp4v" 20 (snd (shape f0), fst (shape f0));
     AlertSent (Warning (upper (fst p0)));
     FrameWritten CLIP_PATH f0] ++
    map (FrameWritten CLIP_PATH) (map fst qs) ++
    [WriterReleased CLIP_PATH;
     Uploaded "crime_clip.mp4" (f0 :: map fst qs) link] in
  (forall l, ~ In (AlertSent (Critical l)) episode) /\
  run_detector ((f0, p0) :: qs ++ [(f, p)]) s w =
    (Ok (set_out None (set_crime_detected false (set_crime_frame_count 0 s))),
     {| last_alert_time := clock (S (time_calls w));
        time_calls := S (S (S (time_calls w)));
        twilio_calls := S (twilio_calls w);
        drive_calls := S (drive_calls w);
        fs := <[CLIP_PATH := f0 :: map fst qs]> (fs w);
        trace := trace w ++ episode |}).
Proof.
  intros Hq0 H5 Hd Hpass Hok Hqs Hp Hdrive Hshort link episode. split.
  { intros l Hin. subst episode. rewrite !in_app_iff, !in_map_iff in Hin. cbn in Hin.
    destruct Hin as [[H | [H | [H | []]]] | [(x & H & _) | [H | [H | []]]]]; discriminate. }
  change ((f0, p0) :: qs ++ [(f, p)]) with ([(f0, p0)] ++ qs ++ [(f, p)]).
  rewrite run_detector_app. cbn [run_detector fst snd]. unfold mbind at 1, M_bind at 1.
  pose proof (detect_crime_trigger f0 p0 s w Hq0 H5 Hd) as Hstep. cbv zeta in Hstep.
  rewrite Hstep, send_alert_delivered by assumption.
  cbn [snd last_alert_time time_calls twilio_calls drive_calls trace fs mret M_ret].
  rewrite run_detector_app.
  rewrite (run_detector_recording qs _ _ [f0]);
    [| exact Hqs | reflexivity | reflexivity | cbn [fs]; apply lookup_insert_eq].
  cbn [run_detector fst snd last_alert_time time_calls twilio_calls drive_calls trace fs].
  unfold mbind, M_bind.
  erewrite (detect_crime_run_end f p); [| exact Hp | reflexivity | reflexivity].
  cbv zeta. cbn [w_path last_alert_time time_calls twilio_calls drive_calls trace fs].
  rewrite (upload_to_drive_ok _ CLIP_PATH (f0 :: map fst qs) id);
    [| cbn [fs]; rewrite insert_insert_eq; apply lookup_insert_eq | exact Hdrive].
  rewrite send_alert_dropped by exact Hshort.
  cbn [snd last_alert_time time_calls twilio_calls drive_calls trace fs mret M_ret].
  rewrite insert_insert_eq. subst episode link. rewrite <- !app_assoc. cbn [app].
  destruct s; cbn in *. subst. reflexivity.
Qed.

End EpisodeProperties.

Section LoopProperties.
Context {frame : Type} `{C : Collaborators frame}.

Implicit Types (w : world frame) (s : locals frame) (f : frame) (p : prediction).
Implicit Types (frames : list frame) (d : list (event frame)).

Lemma skip_next n :
  (n + 1) mod FRAME_SKIP = 0 -> (n + 1) / FRAME_SKIP = n / FRAME_SKIP + 1.
Proof.
  unfold FRAME_SKIP. intros H.
  pose proof (Nat.div_mod_eq n 5). pose proof (Nat.div_mod_eq (n + 1) 5).
  pose proof (Nat.mod_upper_bound n 5). lia.
Qed.

Lemma skip_same n :
  (n + 1) mod FRAME_SKIP <> 0 -> (n + 1) / FRAME_SKIP = n / FRAME_SKIP.
Proof.
  unfold FRAME_SKIP. intros H.
  pose proof (Nat.div_mod_eq n 5). pose proof (Nat.div_mod_eq (n + 1) 5).
  pose proof (Nat.mod_upper_bound n 5). pose proof (Nat.mod_upper_bound (n + 1) 5). lia.
Qed.

Lemma offered_app d d' : offered (d ++ d') = offered d + offered d'.
Proof. unfold offered. now rewrite List.filter_app, length_app. Qed.

Lemma classified_app d d' : classified (d ++ d') = classified d + classified d'.
Proof. unfold classified. now rewrite List.filter_app, length_app. Qed.

Lemma clip_events_quiet (disk : gmap string (list frame)) d :
  Forall (clip_event disk) d ->
  offered d = 0 /\ classified d = 0 /\ Forall clip_named d.
Proof.
  induction 1 as [| e d He _ (IHo & IHc & IHn)]; [repeat split; constructor |].
  destruct e; cbn in He; try contradiction;
    (split; [exact IHo |]); (split; [exact IHc |]); constructor; cbn; tauto.
Qed.

(** A frame whose number is not a multiple of [FRAME_SKIP]: [continue]. *)
Lemma loop_body_skipped f s w :
  (frame_count s + 1) mod FRAME_SKIP <> 0 ->
  loop_body f s w = (Ok (set_frame_count (frame_count s + 1) s), w).
Proof.
  intros H%Nat.eqb_neq. unfold loop_body. on_locals. now rewrite H.
Qed.

(** A frame whose number is a multiple of [FRAME_SKIP] goes on the
    window; a full window goes to the classifier. *)
Lemma loop_body_forwarded f s w :
  (frame_count s + 1) mod FRAME_SKIP = 0 ->
  let s1 := set_frame_buffer (deque_append SEQ_LENGTH (frame_buffer s) f)
              (set_frame_count (frame_count s + 1) s) in
  let wo := {| last_alert_time := last_alert_time w; time_calls := time_calls w;
               twilio_calls := twilio_calls w; drive_calls := drive_calls w;
               fs := fs w; trace := trace w ++ [Offered f] |} in
  let wc := {| last_alert_time := last_alert_time w; time_calls := time_calls w;
               twilio_calls := twilio_calls w; drive_calls := drive_calls w;
               fs := fs w;
               trace := (trace w ++ [Offered f]) ++ [Classified (frame_buffer s1)] |} in
  loop_body f s w =
    if length (frame_buffer s1) =? SEQ_LENGTH then
      match predict_activity (frame_buffer s1) with
      | Some p => detect_crime f p (set_all_predictions (all_predictions s1 ++ [p]) s1) wc
      | None => (Raise ClassifierError, wc)
      end
    else (Ok s1, wo).
Proof.
  intros H%Nat.eqb_eq s1 wo wc. unfold loop_body. on_locals. rewrite H. cbn [negb].
  unfold call_predict_activity. run_monad. subst s1 wo wc. on_locals.
  destruct (length (deque_append SEQ_LENGTH (frame_buffer s) f) =? SEQ_LENGTH);
    [| reflexivity].
  destruct (predict_activity (deque_append SEQ_LENGTH (frame_buffer s) f)) as [p |];
    reflexivity.
Qed.

(** What one iteration does to the trace and to the frame counter. *)
Lemma loop_body_events f s w :
  exists d,
    trace (snd (loop_body f s w)) = trace w ++ d /\
    offered d = (if (frame_count s + 1) mod FRAME_SKIP =? 0 then 1 else 0) /\
    Forall clip_named d /\
    forall s', fst (loop_body f s w) = Ok s' -> frame_count s' = frame_count s + 1.
Proof.
  destruct ((frame_count s + 1) mod FRAME_SKIP =? 0) eqn:E.
  - apply Nat.eqb_eq in E. pose proof (loop_body_forwarded f s w E) as Hb.
    cbv zeta in Hb. rewrite Hb. clear Hb.
    destruct (_ =? SEQ_LENGTH).
    + destruct (predict_activity _) as [p |].
      * match goal with |- context [detect_crime f p ?s1 ?wc] =>
          destruct (detect_crime_events f p s1 wc) as (d & Ht & Hd & _ & Hs) end.
        destruct (clip_events_quiet _ _ Hd) as (Ho & _ & Hn).
        exists ([Offered f; Classified (deque_append SEQ_LENGTH (frame_buffer s) f)] ++ d).
        split; [rewrite Ht; cbn [trace]; now rewrite <- !app_assoc |].
        split; [now rewrite offered_app, Ho |].
        split; [repeat constructor; exact Hn |].
        intros s' Hs'. destruct (Hs s' Hs') as (_ & _ & ->). reflexivity.
      * exists [Offered f; Classified (deque_append SEQ_LENGTH (frame_buffer s) f)].
        cbn [fst snd trace]. split; [now rewrite <- app_assoc |].
        split; [reflexivity |]. split; [repeat constructor | intros s' [=]].
    + exists [Offered f]. cbn [fst snd trace]. split; [reflexivity |].
      split; [reflexivity |]. split; [repeat constructor |]. intros s' [= <-]. reflexivity.
  - apply Nat.eqb_neq in E. rewrite (loop_body_skipped f s w E). cbn [fst snd].
    exists []. split; [now rewrite app_nil_r |]. split; [reflexivity |].
    split; [constructor |]. intros s' [= <-]. reflexivity.
Qed.

Lemma loop_app frames frames' s w :
  loop (frames ++ frames') s w =
    match loop frames s w with
    | (Ok s1, w1) => loop frames' s1 w1
    | (Raise e, w1) => (Raise e, w1)
    end.
Proof.
  revert s w. induction frames as [| f frames IH]; intros s w; [reflexivity |].
  cbn [app loop]. unfold mbind, M_bind.
  destruct (loop_body f s w) as [[s1 | e] w1]; [apply IH | reflexivity].
Qed.

Lemma loop_events frames : forall s w,
  exists d,
    trace (snd (loop frames s w)) = trace w ++ d /\
    Forall clip_named d /\
    forall s', fst (loop frames s w) = Ok s' ->
      frame_count s' = frame_count s + length frames /\
      offered d + frame_count s / FRAME_SKIP = (frame_count s + length frames) / FRAME_SKIP.
Proof.
  induction frames as [| f frames IH]; intros s w.
  - exists []. cbn. rewrite app_nil_r, !Nat.add_0_r.
    split; [reflexivity |]. split; [constructor |]. intros s' [= <-]. auto.
  - cbn [loop length]. unfold mbind, M_bind.
    destruct (loop_body_events f s w) as (d1 & Ht1 & Ho1 & Hn1 & Hc1).
    destruct (loop_body f s w) as [[s1 | e] w1]; cbn [fst snd] in *.
    + destruct (IH s1 w1) as (d2 & Ht2 & Hn2 & Hs2).
      exists (d1 ++ d2). split; [now rewrite Ht2, Ht1, app_assoc |].
      split; [now apply Forall_app |].
      intros s' Hs'. destruct (Hs2 s' Hs') as (Hfc & Hoff).
      rewrite (Hc1 s1 eq_refl) in Hfc, Hoff. split; [lia |].
      rewrite offered_app, Ho1.
      replace (frame_count s + S (length frames)) with (frame_count s + 1 + length frames) by lia.
      destruct (_ =? 0) eqn:E.
      * apply Nat.eqb_eq in E. rewrite (skip_next _ E) in Hoff. lia.
      * apply Nat.eqb_neq in E. rewrite (skip_same _ E) in Hoff. lia.
    + exists d1. split; [exact Ht1 |]. split; [exact Hn1 |]. intros s' [=].
Qed.

End LoopProperties.

Section RequestProperties.
Context {frame : Type} `{C : Collaborators frame}.

Implicit Types (w : world frame) (s : locals frame) (f : frame) (p : prediction).
Implicit Types (frames : list frame) (d : list (event frame)).

Lemma deque_append_length (maxlen : nat) (b : list frame) f :
  length b < maxlen -> length (deque_append maxlen b f) = length b + 1.
Proof.
  intros H. unfold deque_append. rewrite length_app. cbn [length].
  destruct (maxlen <? length b + 1) eqn:E; [| now rewrite length_app].
  apply Nat.ltb_lt in E. lia.
Qed.

(** While fewer than [SEQ_LENGTH] frames have been forwarded the window
    is not full: no classifier call, no prediction, no writer. *)
Lemma loop_short frames : forall s w,
  length (frame_buffer s) = frame_count s / FRAME_SKIP ->
  (frame_count s + length frames) / FRAME_SKIP < SEQ_LENGTH ->
  exists s' w',
    loop frames s w = (Ok s', w') /\
    all_predictions s' = all_predictions s /\
    out s' = out s /\
    classified (trace w') = classified (trace w).
Proof.
  induction frames as [| f frames IH]; intros s w Hlen Hshort.
  - exists s, w. auto.
  - cbn [loop length] in *. unfold mbind, M_bind.
    assert (Hmono : (frame_count s + 1) / FRAME_SKIP
                    <= (frame_count s + S (length frames)) / FRAME_SKIP)
      by (apply Nat.Div0.div_le_mono; lia).
    destruct (Nat.eq_dec ((frame_count s + 1) mod FRAME_SKIP) 0) as [E | E].
    + pose proof (loop_body_forwarded f s w E) as Hb. cbv zeta in Hb. rewrite Hb. clear Hb.
      on_locals. pose proof (skip_next _ E) as Hnext.
      rewrite deque_append_length by lia.
      replace (length (frame_buffer s) + 1 =? SEQ_LENGTH) with false
        by (symmetry; apply Nat.eqb_neq; lia).
      match goal with |- context [loop frames ?s1 ?w1] =>
        destruct (IH s1 w1) as (s' & w' & Hl & Hp & Ho & Hc) end.
      * on_locals. rewrite deque_append_length by lia. lia.
      * on_locals. now replace (frame_count s + 1 + length frames)
          with (frame_count s + S (length frames)) by lia.
      * exists s', w'. rewrite Hl, Hp, Ho, Hc. cbn [trace].
        rewrite classified_app. on_locals. auto.
    + rewrite (loop_body_skipped f s w E). pose proof (skip_same _ E) as Hsame.
      destruct (IH (set_frame_count (frame_count s + 1) s) w) as (s' & w' & Hl & Hp & Ho & Hc).
      * on_locals. lia.
      * on_locals. now replace (frame_count s + 1 + length frames)
          with (frame_count s + S (length frames)) by lia.
      * exists s', w'. rewrite Hl, Hp, Ho, Hc. on_locals. auto.
Qed.

(** C7: a video with fewer than [SEQ_LENGTH] decimated frames never
    fills the window: the loop ends normally with no prediction and
    without a call of the classifier, and the response is "Unknown"
    with confidence 0.0. *)
Theorem short_video_sentinel (v : video_file frame) w :
  length (VideoCapture v) / FRAME_SKIP < SEQ_LENGTH ->
  exists s' w',
    loop (VideoCapture v) init_locals w = (Ok s', w') /\
    all_predictions s' = [] /\
    classified (trace w') = classified (trace w) /\
    upload_video (Some v) w = (Ok (Json200 "Unknown" 0), w').
Proof.
  intros Hshort.
  destruct (loop_short (VideoCapture v) init_locals w eq_refl Hshort)
    as (s' & w' & Hl & Hp & Ho & Hc).
  exists s', w'. on_locals. repeat split; try assumption.
  unfold upload_video, mbind, M_bind. rewrite Hl. unfold close_at_end.
  rewrite Ho, Hp. reflexivity.
Qed.

(** C8: a frame is pushed on the sliding window exactly when the frame
    counter, incremented for it, is a multiple of [FRAME_SKIP]; a
    request that returns has pushed [length frames / FRAME_SKIP] of the
    frames the capture yielded. *)
Theorem decimation (v : video_file frame) w resp w' :
  upload_video (Some v) w = (Ok resp, w') ->
  (exists d, trace w' = trace w ++ d /\
             offered d = length (VideoCapture v) / FRAME_SKIP) /\
  (forall f s w0, exists d,
      trace (snd (loop_body f s w0)) = trace w0 ++ d /\
      offered d = (if (frame_count s + 1) mod FRAME_SKIP =? 0 then 1 else 0)).
Proof.
  intros Hrun. split.
  - unfold upload_video, mbind, M_bind in Hrun.
    destruct (loop_events (VideoCapture v) init_locals w) as (d & Ht & _ & Hs).
    destruct (loop (VideoCapture v) init_locals w) as [[s1 | e] w1]; [| discriminate].
    cbn [fst snd] in *. destruct (Hs s1 eq_refl) as (_ & Hoff). on_locals.
    rewrite close_at_end_trace in Hrun. injection Hrun as _ <-. cbn [trace].
    exists (d ++ match out s1 with Some o => [WriterReleased (w_path o)] | None => [] end).
    split; [now rewrite Ht, app_assoc |].
    rewrite offered_app. cbn in Hoff. rewrite Nat.add_0_r in Hoff. rewrite Hoff.
    now destruct (out s1).
  - intros f s w0. destruct (loop_body_events f s w0) as (d & Ht & Ho & _). eauto.
Qed.

(** C4, as the code has it: a classifier call that raises on a full
    window is caught nowhere; the loop stops at that frame, whatever
    follows it in the video, and the request ends in the exception. *)
Theorem classifier_failure_aborts (pre rest : list frame) f w s1 w1 :
  loop pre init_locals w = (Ok s1, w1) ->
  (frame_count s1 + 1) mod FRAME_SKIP = 0 ->
  length (deque_append SEQ_LENGTH (frame_buffer s1) f) = SEQ_LENGTH ->
  predict_activity (deque_append SEQ_LENGTH (frame_buffer s1) f) = None ->
  upload_video (Some (Decodable (pre ++ f :: rest))) w =
    (Raise ClassifierError,
     {| last_alert_time := last_alert_time w1; time_calls := time_calls w1;
        twilio_calls := twilio_calls w1; drive_calls := drive_calls w1;
        fs := fs w1;
        trace := trace w1 ++ [Offered f;
                              Classified (deque_append SEQ_LENGTH (frame_buffer s1) f)] |}).
Proof.
  intros Hpre Hskip Hfull Hfail.
  unfold upload_video, VideoCapture, mbind, M_bind.
  rewrite loop_app, Hpre. cbn [loop]. unfold mbind, M_bind.
  pose proof (loop_body_forwarded f s1 w1 Hskip) as Hb. cbv zeta in Hb. rewrite Hb.
  on_locals. rewrite Hfull, Nat.eqb_refl, Hfail, <- app_assoc. reflexivity.
Qed.

(** C3, as the code has it: without a payload the route answers with
    the error "No video uploaded"; with a payload OpenCV cannot open,
    the loop reads no frame and the route answers with the prediction
    "Unknown" at confidence 0.0, as for any video too short to
    classify. *)
Theorem unreadable_video_response w :
  upload_video None w = (Ok (Error400 "No video uploaded"), w) /\
  upload_video (Some Undecodable) w = (Ok (Json200 "Unknown" 0), w).
Proof. split; reflexivity. Qed.

(** C10: whatever the state and the world, within a request or in a
    later one, a writer the detector opens is opened on
    "crime_clip.mp4" and an upload it makes sends what the disk holds
    under "crime_clip.mp4"; when a step opens the writer the file holds
    afterwards the current frame only, so what an earlier episode left
    there is gone.  Over a whole request every writer and every upload
    names that path. *)
Theorem clip_path_constant f p s w (file : option (video_file frame)) :
  (exists d,
      trace (snd (detect_crime f p s w)) = trace w ++ d /\
      (forall path fourcc fps size,
          In (WriterOpened path fourcc fps size) d -> path = "crime_clip.mp4") /\
      (forall name content link,
          In (Uploaded name content link) d ->
          name = "crime_clip.mp4" /\ fs w !! "crime_clip.mp4" = Some content) /\
      (opened d = 1 ->
       fs (snd (detect_crime f p s w)) !! "crime_clip.mp4" = Some [f])) /\
  (exists d,
      trace (snd (upload_video file w)) = trace w ++ d /\
      (forall path fourcc fps size,
          In (WriterOpened path fourcc fps size) d -> path = "crime_clip.mp4") /\
      (forall name content link,
          In (Uploaded name content link) d -> name = "crime_clip.mp4")).
Proof.
  split.
  - destruct (detect_crime_events f p s w) as (d & Ht & Hd & Hopen & _).
    exists d. split; [exact Ht |]. rewrite Forall_forall in Hd.
    split; [| split; [| exact Hopen]].
    + intros path fourcc fps size Hin%list_elem_of_In. exact (Hd _ Hin).
    + intros name content link Hin%list_elem_of_In. exact (Hd _ Hin).
  - assert (Hreq : exists d, trace (snd (upload_video file w)) = trace w ++ d /\
                             Forall clip_named d).
    { destruct file as [v |]; [| exists []; split; [now rewrite app_nil_r | constructor]].
      unfold upload_video, mbind, M_bind.
      destruct (loop_events (VideoCapture v) init_locals w) as (d & Ht & Hn & _).
      destruct (loop (VideoCapture v) init_locals w) as [[s1 | e] w1]; cbn [fst snd] in *.
      - rewrite close_at_end_trace. cbn [snd trace].
        exists (d ++ match out s1 with Some o => [WriterReleased (w_path o)] | None => [] end).
        split; [now rewrite Ht, app_assoc |]. apply Forall_app. split; [exact Hn |].
        destruct (out s1); repeat constructor.
      - exists d. auto. }
    destruct Hreq as (d & Ht & Hn). exists d. split; [exact Ht |].
    rewrite Forall_forall in Hn. split.
    + intros path fourcc fps size Hin%list_elem_of_In. exact (Hn _ Hin).
    + intros name content link Hin%list_elem_of_In. exact (Hn _ Hin).
Qed.

End RequestProperties.

Section BestPrediction.

Implicit Types (p best : prediction) (preds : list prediction).

(** The candidate [max] ends with stands in the list, after items that
    are all strictly below it and before items that are not above it. *)
Lemma max_from_first_maximum preds : forall best,
  exists before after,
    best :: preds = before ++ max_from best preds :: after /\
    Forall (fun p => (snd p < snd (max_from best preds))%Q) before /\
    Forall (fun p => (snd p <= snd (max_from best preds))%Q) after.
Proof.
  induction preds as [| x preds IH]; intros best.
  - exists [], []. cbn. auto.
  - cbn [max_from]. destruct (Qltb (snd best) (snd x)) eqn:E.
    + apply Qltb_true in E.
      destruct (IH x) as (before & after & Heq & Hb & Ha).
      exists (best :: before), after. split; [cbn; now rewrite Heq |].
      split; [| exact Ha]. constructor; [| exact Hb].
      destruct before as [| y before]; injection Heq as Hx Hrest.
      * now rewrite <- Hx.
      * subst y. apply Forall_cons in Hb as [Hb _]. eapply Qlt_trans; eassumption.
    + apply Qltb_false in E.
      destruct (IH best) as (before & after & Heq & Hb & Ha).
      destruct before as [| y before]; injection Heq as Hx Hrest.
      * exists [], (x :: after). split; [cbn; now rewrite <- Hx, Hrest |].
        split; [constructor |]. constructor; [now rewrite <- Hx | exact Ha].
      * subst y. apply Forall_cons in Hb as [Hb0 Hb].
        exists (best :: x :: before), after. split; [cbn; do 2 f_equal; exact Hrest |].
        split; [| exact Ha]. constructor; [exact Hb0 |].
        constructor; [| exact Hb]. eapply Qle_lt_trans; eassumption.
Qed.

(** C6: on a non-empty list of predictions the result is one of them,
    no prediction has a greater confidence, and every prediction that
    came before it has a strictly smaller one: the first of the maxima. *)
Theorem best_prediction_first_maximum preds :
  preds <> [] ->
  exists before after,
    preds = before ++ best_prediction preds :: after /\
    Forall (fun p => (snd p < snd (best_prediction preds))%Q) before /\
    Forall (fun p => (snd p <= snd (best_prediction preds))%Q) after.
Proof.
  destruct preds as [| x preds]; [congruence | intros _].
  apply max_from_first_maximum.
Qed.

End BestPrediction.

(** C2: a 120-frame video whose every window is a robbery at 0.9 ends
    while the recording is open.  The request returns its prediction
    after the writer is released, and that is all: nothing is uploaded
    and no confirmation is sent, because the code after the loop only
    releases the writer. *)
Theorem stream_end_releases_only :
  (forall (s : locals nat) (w : world nat),
      trace (snd (close_at_end s w)) =
        trace w ++ match out s with
                   | Some o => [WriterReleased (w_path o)]
                   | None => []
                   end) /\
  let run := upload_video (C := always_robbery 1) (Some (Decodable (seq 1 120))) fresh_world in
  fst run = Ok (Json200 "Robbery" (9 # 10)) /\
  outward (trace (snd run)) =
    [WriterOpened "crime_clip.mp4" "mp4v" 20 (640, 480);
     AlertSent (Warning "ROBBERY");
     FrameWritten "crime_clip.mp4" 100;
     FrameWritten "crime_clip.mp4" 105;
     FrameWritten "crime_clip.mp4" 110;
     FrameWritten "crime_clip.mp4" 115;
     FrameWritten "crime_clip.mp4" 120;
     WriterReleased "crime_clip.mp4"].
Proof.
  split.
  - intros s w. now rewrite close_at_end_trace.
  - vm_compute. split; reflexivity.
Qed.

(** ** The theorems at concrete inputs *)

Lemma send_alert_throttle_witness :
  let w1 := snd (send_alert (C := always_robbery 1) (Warning "ROBBERY") fresh_world) in
  trace w1 = [AlertSent (Warning "ROBBERY")] /\
  (ticking 1 (time_calls w1) - last_alert_time w1 < ALERT_INTERVAL)%Q /\
  trace (snd (send_alert (C := always_robbery 1) (Critical "link") w1)) =
    [AlertSent (Warning "ROBBERY")] /\
  twilio_calls (snd (send_alert (C := always_robbery 1) (Critical "link") w1)) = 1.
Proof.
  intros w1.
  assert (Hsent : trace w1 = trace (frame := nat) fresh_world ++ [AlertSent (Warning "ROBBERY")])
    by reflexivity.
  assert (Hlt : (ticking 1 (time_calls w1) - last_alert_time w1 < ALERT_INTERVAL)%Q)
    by (vm_compute; reflexivity).
  split; [exact Hsent |]. split; [exact Hlt |].
  destruct (send_alert_throttle (C := always_robbery 1) fresh_world
              (Warning "ROBBERY") (Critical "link")) as [Hfirst _].
  destruct (Hfirst Hsent) as (_ & Hdrop & _).
  destruct (Hdrop Hlt) as (Ht & Hc & _). split; [exact Ht | exact Hc].
Defined.

Lemma crime_run_detector_witness :
  exists st w',
    run_detector (C := always_robbery 1) five_robberies init_locals fresh_world = (Ok st, w') /\
    crime_frame_count st = 5 /\
    crime_detected st = true.
Proof.
  assert (E : exists st w',
             run_detector (C := always_robbery 1) five_robberies init_locals fresh_world
             = (Ok st, w')) by (vm_compute; eauto).
  destruct E as (st & w' & E). exists st, w'. split; [exact E |].
  destruct (crime_run_detector (C := always_robbery 1) _ _ _ _ E) as (_ & Hc & Hd & _).
  split; [rewrite Hc | rewrite Hd]; reflexivity.
Defined.

Lemma short_run_confirmation_dropped_witness :
  qualifies ("robbery", (9 # 10)%Q) = true /\
  qualifies ("walking", (8 # 10)%Q) = false /\
  (ticking 1 2 - ticking 1 1 < ALERT_INTERVAL)%Q /\
  outward (trace (snd (run_detector (C := always_robbery 1)
                         ((100, ("robbery", (9 # 10)%Q))
                            :: [(105, ("robbery", (9 # 10)%Q)); (110, ("Stealing", (8 # 10)%Q))]
                            ++ [(115, ("walking", (8 # 10)%Q))])
                         four_counted fresh_world))) =
    [WriterOpened "crime_clip.mp4" "mp4v" 20 (640, 480);
     AlertSent (Warning "ROBBERY");
     FrameWritten "crime_clip.mp4" 100;
     FrameWritten "crime_clip.mp4" 105;
     FrameWritten "crime_clip.mp4" 110;
     WriterReleased "crime_clip.mp4";
     Uploaded "crime_clip.mp4" [100; 105; 110]
       "https://drive.google.com/file/d/clip/view?usp=sharing"].
Proof.
  split; [reflexivity |]. split; [reflexivity |]. split; [vm_compute; reflexivity |].
  destruct (short_run_confirmation_dropped (C := always_robbery 1)
              100 ("robbery", (9 # 10)%Q)
              [(105, ("robbery", (9 # 10)%Q)); (110, ("Stealing", (8 # 10)%Q))]
              115 ("walking", (8 # 10)%Q) four_counted fresh_world "clip") as [_ Hrun].
  - reflexivity.
  - cbn. lia.
  - reflexivity.
  - vm_compute. discriminate.
  - reflexivity.
  - repeat constructor.
  - reflexivity.
  - reflexivity.
  - vm_compute. reflexivity.
  - exact (f_equal (fun r => outward (trace (snd r))) Hrun).
Defined.

Lemma short_video_sentinel_witness :
  length (VideoCapture (Decodable (seq 1 79))) / FRAME_SKIP < SEQ_LENGTH /\
  fst (upload_video (C := failing_classifier) (Some (Decodable (seq 1 79))) fresh_world)
  = Ok (Json200 "Unknown" 0).
Proof.
  assert (H : length (VideoCapture (Decodable (seq 1 79))) / FRAME_SKIP < SEQ_LENGTH)
    by (vm_compute; lia).
  split; [exact H |].
  destruct (short_video_sentinel (C := failing_classifier) (Decodable (seq 1 79)) fresh_world H)
    as (s' & w' & _ & _ & _ & Hr).
  now rewrite Hr.
Defined.

Lemma decimation_witness :
  exists resp w',
    upload_video (C := always_robbery 1) (Some (Decodable (seq 1 23))) fresh_world
    = (Ok resp, w') /\
    offered (trace w') = 4.
Proof.
  assert (E : exists resp w',
             upload_video (C := always_robbery 1) (Some (Decodable (seq 1 23))) fresh_world
             = (Ok resp, w')) by (vm_compute; eauto).
  destruct E as (resp & w' & E). exists resp, w'. split; [exact E |].
  destruct (decimation (C := always_robbery 1) _ _ _ _ E) as [(d & Ht & Ho) _].
  rewrite Ht. exact Ho.
Defined.

Lemma classifier_failure_aborts_witness :
  fst (upload_video (C := failing_classifier)
         (Some (Decodable (seq 1 79 ++ 80 :: seq 81 10))) fresh_world)
  = Raise ClassifierError.
Proof.
  assert (E : exists s1 w1,
             loop (C := failing_classifier) (seq 1 79) init_locals fresh_world = (Ok s1, w1) /\
             frame_count s1 = 79 /\ frame_buffer s1 = map (fun n => 5 * n) (seq 1 15))
    by (vm_compute; eauto).
  destruct E as (s1 & w1 & E & Hc & Hb).
  rewrite (classifier_failure_aborts (C := failing_classifier) (seq 1 79) (seq 81 10) 80
             fresh_world s1 w1 E).
  - reflexivity.
  - rewrite Hc. reflexivity.
  - rewrite Hb. reflexivity.
  - reflexivity.
Defined.

Lemma best_prediction_first_maximum_witness :
  [("walking", (1 # 2)%Q); ("robbery", (9 # 10)%Q); ("stealing", (9 # 10)%Q)] <> [] /\
  best_prediction [("walking", (1 # 2)%Q); ("robbery", (9 # 10)%Q); ("stealing", (9 # 10)%Q)]
  = ("robbery", (9 # 10)%Q) /\
  exists before after,
    [("walking", (1 # 2)%Q); ("robbery", (9 # 10)%Q); ("stealing", (9 # 10)%Q)]
    = before ++ ("robbery", (9 # 10)%Q) :: after /\
    Forall (fun p => (snd p < 9 # 10)%Q) before /\
    Forall (fun p => (snd p <= 9 # 10)%Q) after.
Proof.
  split; [discriminate |]. split; [reflexivity |].
  apply (best_prediction_first_maximum
           [("walking", (1 # 2)%Q); ("robbery", (9 # 10)%Q); ("stealing", (9 # 10)%Q)]).
  discriminate.
Defined.

Lemma clip_path_constant_witness :
  fs old_clip_world !! "crime_clip.mp4" = Some [1; 2; 3] /\
  fs (snd (detect_crime (C := always_robbery 1) 7 ("robbery", (9 # 10)%Q)
             four_counted old_clip_world)) !! "crime_clip.mp4" = Some [7].
Proof.
  split; [reflexivity |].
  destruct (clip_path_constant (C := always_robbery 1) 7 ("robbery", (9 # 10)%Q)
              four_counted old_clip_world None) as [(d & Ht & _ & _ & Hopen) _].
  apply Hopen. cbn [trace old_clip_world app] in Ht. rewrite <- Ht. reflexivity.
Defined.

(** ** Where the code departs from the specification *)

(** C3 at a payload OpenCV cannot open: the response is not an error. *)
Lemma undecodable_video_counterexample :
  fst (upload_video (C := always_robbery 1) (Some Undecodable) fresh_world)
  = Ok (Json200 "Unknown" 0) /\
  ~ is_error_response
      (fst (upload_video (C := always_robbery 1) (Some Undecodable) fresh_world)) = true.
Proof. split; [reflexivity | discriminate]. Qed.

(** C4 at a 90-frame video whose first full window makes the classifier
    raise: the request aborts, and frames 85 and 90 are never pushed on
    the window. *)
Lemma classifier_failure_counterexample :
  let run := upload_video (C := failing_classifier) (Some (Decodable (seq 1 90))) fresh_world in
  fst run = Raise ClassifierError /\
  ~ (exists resp, fst run = Ok resp) /\
  offered (trace (snd run)) = 16 /\
  length (seq 1 90) / FRAME_SKIP = 18.
Proof.
  vm_compute. split; [reflexivity |]. split; [| split; reflexivity].
  intros (resp & H). discriminate.
Qed.

(** C9 at a run of one recorded frame with a slow upload.  The clock
    advances 30 s a reading: the warning leaves the timestamp 1030, the
    run ends at 1031, one second later, and the confirmation's
    [send_alert] reads 1060 once the upload has returned.  The run is
    shorter than [ALERT_INTERVAL] and ended inside the interval, and the
    confirmation is delivered. *)
Lemma short_run_confirmation_counterexample :
  let started :=
    snd (detect_crime (C := always_robbery (30 # 1)) 100 ("robbery", (9 # 10)%Q)
           four_counted fresh_world) in
  let ended :=
    snd (run_detector (C := always_robbery (30 # 1))
           [(100, ("robbery", (9 # 10)%Q)); (105, ("walking", (8 # 10)%Q))]
           four_counted fresh_world) in
  let run_end : Q := 1031 # 1 in
  In (AlertSent (Warning "ROBBERY")) (trace started) /\
  (last_alert_time started <= run_end)%Q /\
  (run_end - last_alert_time started < ALERT_INTERVAL)%Q /\
  (run_end <= ticking (30 # 1) (time_calls started))%Q /\
  outward (trace ended) =
    [WriterOpened "crime_clip.mp4" "mp4v" 20 (640, 480);
     AlertSent (Warning "ROBBERY");
     FrameWritten "crime_clip.mp4" 100;
     WriterReleased "crime_clip.mp4";
     Uploaded "crime_clip.mp4" [100] "https://drive.google.com/file/d/clip/view?usp=sharing";
     AlertSent (Critical "https://drive.google.com/file/d/clip/view?usp=sharing")] /\
  ~ (forall l, ~ In (AlertSent (Critical l)) (trace ended)).
Proof.
  cbv zeta. split; [vm_compute; auto |].
  split; [vm_compute; discriminate |].
  split; [vm_compute; reflexivity |].
  split; [vm_compute; discriminate |].
  split; [vm_compute; reflexivity |].
  intros H. apply (H "https://drive.google.com/file/d/clip/view?usp=sharing").
  vm_compute. auto 10.
Qed.

(** ** Further properties of the request *)

Section WriterDiscipline.
Context {frame : Type} `{C : Collaborators frame}.

Implicit Types (w : world frame) (s : locals frame) (f : frame) (p : prediction).
Implicit Types (frames : list frame) (d : list (event frame)).

(** The detector raises only out of [upload_to_drive], at the end of a run. *)
Lemma detect_crime_raise f p s w e :
  fst (detect_crime f p s w) = Raise e ->
  e = UploadError /\ qualifies p = false /\ crime_detected s = true /\ out s <> None.
Proof.
  destruct (qualifies p) eqn:Hq; destruct (crime_detected s) eqn:Hd.
  - destruct (out s) as [o |] eqn:Ho.
    + now rewrite (detect_crime_recording f p s w o Hq Hd Ho).
    + now rewrite (detect_crime_flag_only f p s w Hq Hd Ho).
  - destruct (le_lt_dec 5 (crime_frame_count s + 1)) as [H5 | H5].
    + pose proof (detect_crime_trigger f p s w Hq H5 Hd) as Hstep.
      cbv zeta in Hstep. now rewrite Hstep.
    + now rewrite (detect_crime_accumulating f p s w Hq H5 Hd).
  - destruct (out s) as [o |] eqn:Ho.
    + rewrite (detect_crime_run_end f p s w o Hq Hd Ho). cbv zeta.
      match goal with |- context [upload_to_drive ?path ?wr] =>
        destruct (upload_to_drive_cases wr path) as [(content & link & _ & Hr & _) | (Hr & _)];
        destruct (upload_to_drive path wr) as [r wu] end; cbn [fst snd] in *; subst r.
      * discriminate.
      * intros [= <-]. auto.
    + now rewrite (detect_crime_flag_reset f p s w Hq Hd Ho).
  - now rewrite (detect_crime_idle f p s w Hq Hd).
Qed.

(** One iteration replays as writer events that never nest, and says in
    which way it can leave a writer open. *)
Lemma loop_body_writer f s w :
  crime_detected s = (5 <=? crime_frame_count s) ->
  (out s = None <-> crime_detected s = false) ->
  exists d b,
    trace (snd (loop_body f s w)) = trace w ++ d /\
    one_at_a_time (crime_detected s) d = Some b /\
    match fst (loop_body f s w) with
    | Ok s' => b = crime_detected s' /\
               crime_detected s' = (5 <=? crime_frame_count s') /\
               (out s' = None <-> crime_detected s' = false)
    | Raise UploadError => b = false
    | Raise ClassifierError => b = crime_detected s
    end.
Proof.
  intros Hdet Hout.
  destruct (Nat.eq_dec ((frame_count s + 1) mod FRAME_SKIP) 0) as [E | E].
  - pose proof (loop_body_forwarded f s w E) as Hb. cbv zeta in Hb. rewrite Hb. clear Hb.
    destruct (_ =? SEQ_LENGTH).
    + destruct (predict_activity _) as [p |].
      * match goal with |- context [detect_crime f p ?s1 ?wc] =>
          destruct (detector_step f p s1 wc Hdet Hout) as (d & Ht & _ & _ & Hone & Hnext);
          pose proof (detect_crime_raise f p s1 wc) as Hraise;
          destruct (detect_crime f p s1 wc) as [[s' | e] w'] end.
        -- cbn [fst snd] in *. destruct (Hnext s' eq_refl) as (Hc & Hd' & Ho').
           eexists (_ :: _ :: d), _. split; [rewrite Ht; cbn [trace]; now rewrite <- !app_assoc |].
           split; [exact Hone |]. split; [| split; assumption].
           rewrite Hd', Hc. on_locals. now destruct (qualifies p).
        -- cbn [fst snd] in *. destruct (Hraise e eq_refl) as (-> & Hq & _).
           eexists (_ :: _ :: d), _. split; [rewrite Ht; cbn [trace]; now rewrite <- !app_assoc |].
           split; [exact Hone |]. now rewrite Hq.
      * eexists [_; _], _. cbn [fst snd trace]. split; [now rewrite <- app_assoc |].
        split; reflexivity.
    + eexists [_], _. cbn [fst snd trace]. split; [reflexivity |].
      split; [reflexivity |]. on_locals. auto.
  - rewrite (loop_body_skipped f s w E). cbn [fst snd].
    exists [], (crime_detected s). split; [now rewrite app_nil_r |].
    split; [reflexivity |]. on_locals. auto.
Qed.

Lemma loop_writer frames : forall s w,
  crime_detected s = (5 <=? crime_frame_count s) ->
  (out s = None <-> crime_detected s = false) ->
  exists d b,
    trace (snd (loop frames s w)) = trace w ++ d /\
    one_at_a_time (crime_detected s) d = Some b /\
    match fst (loop frames s w) with
    | Ok s' => b = crime_detected s' /\ (out s' = None <-> crime_detected s' = false)
    | Raise UploadError => b = false
    | Raise ClassifierError => True
    end.
Proof.
  induction frames as [| f frames IH]; intros s w Hdet Hout.
  - exists [], (crime_detected s). cbn. rewrite app_nil_r. auto.
  - cbn [loop]. unfold mbind, M_bind.
    destruct (loop_body_writer f s w Hdet Hout) as (d1 & b1 & Ht1 & Hone1 & Hres).
    destruct (loop_body f s w) as [[s1 | e] w1]; cbn [fst snd] in *.
    + destruct Hres as (-> & Hdet1 & Hout1).
      destruct (IH s1 w1 Hdet1 Hout1) as (d2 & b2 & Ht2 & Hone2 & Hres2).
      exists (d1 ++ d2), b2. split; [now rewrite Ht2, Ht1, app_assoc |].
      split; [now rewrite one_at_a_time_app, Hone1 |]. exact Hres2.
    + exists d1, b1. split; [exact Ht1 |]. split; [exact Hone1 |]. now destruct e.
Qed.

(** X1: over a whole request the clip writers never nest (none is opened
    while one is open, none released while none is open), and unless the
    request died in the classifier, no writer is open when it ends. *)
Theorem request_writers_never_nest (file : option (video_file frame)) w :
  exists d b,
    trace (snd (upload_video file w)) = trace w ++ d /\
    one_at_a_time false d = Some b /\
    match fst (upload_video file w) with
    | Raise ClassifierError => True
    | _ => b = false
    end.
Proof.
  destruct file as [v |]; [| exists [], false; cbn; now rewrite app_nil_r].
  unfold upload_video, mbind, M_bind.
  destruct (loop_writer (VideoCapture v) init_locals w eq_refl) as (d & b & Ht & Hone & Hres);
    [now split |].
  on_locals. destruct (loop (VideoCapture v) init_locals w) as [[s1 | e] w1]; cbn [fst snd] in *.
  - rewrite close_at_end_trace. cbn [fst snd trace]. destruct Hres as (-> & Hout).
    exists (d ++ match out s1 with Some o => [WriterReleased (w_path o)] | None => [] end), false.
    split; [now rewrite Ht, app_assoc |]. split; [| reflexivity].
    rewrite one_at_a_time_app, Hone. destruct (out s1) as [o |] eqn:Ho.
    + destruct (crime_detected s1); [reflexivity |].
      destruct Hout as [_ Hout]. now specialize (Hout eq_refl).
    + destruct Hout as [Hout _]. now rewrite (Hout eq_refl).
  - exists d, b. split; [exact Ht |]. split; [exact Hone |]. now destruct e.
Qed.

(** X2: when the classifier raises on a full window while a recording is
    open, the request ends with the writer still open: it is never
    released, and the clip is not uploaded. *)
Theorem classifier_failure_leaves_writer_open (pre rest : list frame) f w s1 w1 :
  loop pre init_locals w = (Ok s1, w1) ->
  crime_detected s1 = true ->
  (frame_count s1 + 1) mod FRAME_SKIP = 0 ->
  length (deque_append SEQ_LENGTH (frame_buffer s1) f) = SEQ_LENGTH ->
  predict_activity (deque_append SEQ_LENGTH (frame_buffer s1) f) = None ->
  exists d,
    trace (snd (upload_video (Some (Decodable (pre ++ f :: rest))) w)) = trace w ++ d /\
    one_at_a_time false d = Some true /\
    fs (snd (upload_video (Some (Decodable (pre ++ f :: rest))) w)) = fs w1 /\
    drive_calls (snd (upload_video (Some (Decodable (pre ++ f :: rest))) w)) = drive_calls w1.
Proof.
  intros Hpre Hrec Hskip Hfull Hfail.
  destruct (loop_writer pre init_locals w eq_refl) as (d & b & Ht & Hone & Hres);
    [now split |].
  rewrite Hpre in Ht, Hres. cbn [fst snd] in *. destruct Hres as (-> & _).
  unfold upload_video, VideoCapture, mbind, M_bind.
  rewrite loop_app, Hpre. cbn [loop]. unfold mbind, M_bind.
  pose proof (loop_body_forwarded f s1 w1 Hskip) as Hb. cbv zeta in Hb. rewrite Hb.
  on_locals. rewrite Hfull, Nat.eqb_refl, Hfail. cbn [fst snd trace fs drive_calls].
  eexists (d ++ [_; _]). split; [now rewrite Ht, <- !app_assoc |].
  split; [| split; reflexivity].
  rewrite one_at_a_time_app, Hone. on_locals. now rewrite Hrec.
Qed.

End WriterDiscipline.

Section UploadProperties.
Context {frame : Type} `{C : Collaborators frame}.

Implicit Types (w : world frame) (s : locals frame) (f : frame) (p : prediction).
Implicit Types (qs : list (frame * prediction)) (d : list (event frame)).

(** When Drive refuses, [upload_to_drive] raises after logging the
    failure, whether or not the file is there. *)
Lemma upload_to_drive_refused w path :
  drive_create (drive_calls w) = None ->
  fst (upload_to_drive path w) = Raise UploadError /\
  trace (snd (upload_to_drive path w)) = trace w ++ [UploadFailed path] /\
  twilio_calls (snd (upload_to_drive path w)) = twilio_calls w /\
  last_alert_time (snd (upload_to_drive path w)) = last_alert_time w.
Proof.
  intros Hd. unfold upload_to_drive. run_monad.
  destruct (fs w !! path); cbn; [rewrite Hd |]; cbn; auto.
Qed.

(** X3: a run that ends on a non-qualifying prediction while Drive
    refuses the upload takes the whole request down: the writer is
    released, the upload fails, the exception is caught nowhere, no
    confirmation reaches [send_alert], and the rest of the video is not
    read. *)
Theorem upload_failure_aborts (pre rest : list frame) f p w s1 w1 o :
  loop pre init_locals w = (Ok s1, w1) ->
  (frame_count s1 + 1) mod FRAME_SKIP = 0 ->
  length (deque_append SEQ_LENGTH (frame_buffer s1) f) = SEQ_LENGTH ->
  predict_activity (deque_append SEQ_LENGTH (frame_buffer s1) f) = Some p ->
  qualifies p = false ->
  crime_detected s1 = true ->
  out s1 = Some o ->
  drive_create (drive_calls w1) = None ->
  let run := upload_video (Some (Decodable (pre ++ f :: rest))) w in
  fst run = Raise UploadError /\
  trace (snd run) =
    trace w1 ++ [Offered f; Classified (deque_append SEQ_LENGTH (frame_buffer s1) f);
                 WriterReleased (w_path o); UploadFailed CLIP_PATH] /\
  twilio_calls (snd run) = twilio_calls w1 /\
  last_alert_time (snd run) = last_alert_time w1.
Proof.
  intros Hpre Hskip Hfull Hpred Hq Hrec Hout Hdrive run. subst run.
  unfold upload_video, VideoCapture, mbind, M_bind.
  rewrite loop_app, Hpre. cbn [loop]. unfold mbind, M_bind.
  pose proof (loop_body_forwarded f s1 w1 Hskip) as Hb. cbv zeta in Hb. rewrite Hb. clear Hb.
  on_locals. rewrite Hfull, Nat.eqb_refl, Hpred.
  erewrite (detect_crime_run_end f p); [| exact Hq | exact Hrec | exact Hout]. cbv zeta.
  match goal with |- context [upload_to_drive ?path ?wr] =>
    destruct (upload_to_drive_refused wr path Hdrive) as (Hr & Ht & Htw & Hl);
    destruct (upload_to_drive path wr) as [r wu] end.
  cbn [fst snd trace twilio_calls last_alert_time] in *. subst r. cbn [fst snd].
  rewrite Ht, Htw, Hl, <- !app_assoc. auto.
Qed.

(** X4: whatever becomes of the two alerts, an episode that starts on
    frame [f0], goes on through the frames of [qs] and ends on a
    non-qualifying prediction uploads, when Drive accepts, exactly
    [f0 :: map fst qs]: the clip starts with the frame that completed the
    run of five, not with the four before it.  One writer is opened and
    one released, and the detector is back in its initial state. *)
Theorem episode_uploads_its_frames f0 p0 qs f p s w id :
  qualifies p0 = true ->
  5 <= crime_frame_count s + 1 ->
  crime_detected s = false ->
  Forall (fun fp => qualifies (snd fp) = true) qs ->
  qualifies p = false ->
  drive_create (drive_calls w) = Some id ->
  let link := "https://drive.google.com/file/d/" +:+ id +:+ "/view?usp=sharing" in
  exists w' d,
    run_detector ((f0, p0) :: qs ++ [(f, p)]) s w =
      (Ok (set_out None (set_crime_detected false (set_crime_frame_count 0 s))), w') /\
    fs w' = <[CLIP_PATH := f0 :: map fst qs]> (fs w) /\
    drive_calls w' = S (drive_calls w) /\
    trace w' = trace w ++ d /\
    In (Uploaded "crime_clip.mp4" (f0 :: map fst qs) link) d /\
    opened d = 1 /\ released d = 1.
Proof.
  intros Hq0 H5 Hd Hqs Hp Hdrive link.
  change ((f0, p0) :: qs ++ [(f, p)]) with ([(f0, p0)] ++ qs ++ [(f, p)]).
  rewrite run_detector_app. cbn [run_detector fst snd]. unfold mbind at 1, M_bind at 1.
  pose proof (detect_crime_trigger f0 p0 s w Hq0 H5 Hd) as Hstep. cbv zeta in Hstep.
  rewrite Hstep. clear Hstep.
  match goal with |- context [send_alert ?m ?wo] =>
    destruct (send_alert_frame wo m) as (_ & Hdc & Hta); set (wa := snd (send_alert m wo)) in * end.
  cbn [drive_calls trace] in Hdc, Hta. cbn [mret M_ret].
  rewrite run_detector_app.
  rewrite (run_detector_recording qs _ _ [f0]);
    [| exact Hqs | reflexivity | reflexivity | cbn [fs]; apply lookup_insert_eq].
  cbn [run_detector fst snd last_alert_time time_calls twilio_calls drive_calls trace fs].
  unfold mbind, M_bind.
  erewrite (detect_crime_run_end f p); [| exact Hp | reflexivity | reflexivity].
  cbv zeta. cbn [w_path last_alert_time time_calls twilio_calls drive_calls trace fs].
  rewrite (upload_to_drive_ok _ CLIP_PATH (f0 :: map fst qs) id);
    [| cbn [fs]; rewrite insert_insert_eq; apply lookup_insert_eq
     | cbn [drive_calls]; now rewrite Hdc].
  match goal with |- context [send_alert ?m ?wu] =>
    destruct (send_alert_frame wu m) as (Hfs2 & Hdc2 & Htc); set (wc := snd (send_alert m wu)) in * end.
  cbn [fs drive_calls trace] in Hfs2, Hdc2, Htc. cbn [mret M_ret].
  assert (Hshape : exists da db,
             trace wc = trace w
               ++ (WriterOpened CLIP_PATH "mp4v" 20 (snd (shape f0), fst (shape f0)) :: da)
               ++ (FrameWritten CLIP_PATH f0 :: map (FrameWritten CLIP_PATH) (map fst qs))
               ++ [WriterReleased CLIP_PATH;
                   Uploaded "crime_clip.mp4" (f0 :: map fst qs) link] ++ db /\
             opened da = 0 /\ released da = 0 /\ opened db = 0 /\ released db = 0).
  { assert (Ha : exists da, trace wa =
                     (trace w ++ [WriterOpened CLIP_PATH "mp4v" 20 (snd (shape f0), fst (shape f0))])
                       ++ da /\ opened da = 0 /\ released da = 0).
    { destruct Hta as [Hta | [Hta | Hta]]; rewrite Hta;
        [exists [] | eexists [_] | eexists [_]]; rewrite ?app_nil_r; auto. }
    assert (Hb : exists db, trace wc =
                     ((((trace wa ++ [FrameWritten CLIP_PATH f0]) ++
                        map (FrameWritten CLIP_PATH) (map fst qs)) ++
                       [WriterReleased CLIP_PATH]) ++
                      [Uploaded "crime_clip.mp4" (f0 :: map fst qs) link]) ++ db /\
                     opened db = 0 /\ released db = 0).
    { destruct Htc as [Htc | [Htc | Htc]]; rewrite Htc;
        [exists [] | eexists [_] | eexists [_]]; rewrite ?app_nil_r; auto. }
    destruct Ha as (da & Ha & Hoa & Hra). destruct Hb as (db & Hb & Hob & Hrb).
    exists da, db. split; [| auto]. rewrite Hb, Ha, <- !app_assoc. reflexivity. }
  destruct Hshape as (da & db & Htrace & Hoa & Hra & Hob & Hrb).
  eexists wc, _. split; [| split; [| split; [| split; [exact Htrace |]]]].
  - destruct s; cbn in *. subst. reflexivity.
  - rewrite Hfs2. now rewrite insert_insert_eq.
  - rewrite Hdc2, Hdc. reflexivity.
  - assert (Hw : forall l, opened (map (FrameWritten CLIP_PATH) l) = 0 /\
                           released (map (FrameWritten (frame := frame) CLIP_PATH) l) = 0)
      by (induction l; split; try reflexivity; cbn; tauto).
    split; [| split].
    + rewrite !in_app_iff. right. right. left. cbn. auto.
    + rewrite !opened_app. change (opened (?e :: da)) with (S (opened da)).
      cbn [opened]. destruct (Hw (map fst qs)) as (Hwo & _).
      change (opened (FrameWritten CLIP_PATH f0 :: ?l)) with (opened l).
      rewrite Hoa, Hwo, Hob. reflexivity.
    + rewrite !released_app. destruct (Hw (map fst qs)) as (_ & Hwr).
      change (released (WriterOpened CLIP_PATH "mp4v" 20 (snd (shape f0), fst (shape f0)) :: da))
        with (released da).
      change (released (FrameWritten CLIP_PATH f0 :: ?l)) with (released l).
      rewrite Hra, Hwr. cbn. now rewrite Hrb.
Qed.

End UploadProperties.

Section AlertIndependence.
Context {frame : Type} (C1 C2 : Collaborators frame).

Hypothesis same_classifier :
  forall window, predict_activity (Collaborators := C1) window
                 = predict_activity (Collaborators := C2) window.
Hypothesis same_drive :
  forall n, drive_create (Collaborators := C1) n = drive_create (Collaborators := C2) n.

Implicit Types (w : world frame) (s : locals frame) (f : frame) (p : prediction).

Lemma send_alert_same_disk w1 w2 (m1 m2 : message) :
  same_disk w1 w2 ->
  same_disk (snd (send_alert (C := C1) m1 w1)) (snd (send_alert (C := C2) m2 w2)).
Proof.
  intros [Hfs Hdc].
  destruct (send_alert_frame (C := C1) w1 m1) as (Hf1 & Hd1 & _).
  destruct (send_alert_frame (C := C2) w2 m2) as (Hf2 & Hd2 & _).
  split; congruence.
Qed.

Lemma upload_to_drive_same_disk w1 w2 (path : string) :
  same_disk w1 w2 ->
  fst (upload_to_drive (C := C1) path w1) = fst (upload_to_drive (C := C2) path w2) /\
  same_disk (snd (upload_to_drive (C := C1) path w1)) (snd (upload_to_drive (C := C2) path w2)).
Proof.
  intros [Hfs Hdc]. unfold upload_to_drive, same_disk. run_monad. rewrite Hfs.
  destruct (fs w2 !! path); cbn; [| auto].
  rewrite Hdc, same_drive. destruct (drive_create (drive_calls w2)); cbn; auto.
Qed.

Lemma detect_crime_same_disk f p s w1 w2 :
  same_disk w1 w2 ->
  fst (detect_crime (C := C1) f p s w1) = fst (detect_crime (C := C2) f p s w2) /\
  same_disk (snd (detect_crime (C := C1) f p s w1)) (snd (detect_crime (C := C2) f p s w2)).
Proof.
  intros Hsame. pose proof Hsame as [Hfs Hdc].
  destruct (qualifies p) eqn:Hq; destruct (crime_detected s) eqn:Hd.
  - destruct (out s) as [o |] eqn:Ho.
    + rewrite (detect_crime_recording (C := C1) f p s w1 o Hq Hd Ho),
        (detect_crime_recording (C := C2) f p s w2 o Hq Hd Ho).
      unfold same_disk. cbn. now rewrite Hfs, Hdc.
    + now rewrite (detect_crime_flag_only (C := C1) f p s w1 Hq Hd Ho),
        (detect_crime_flag_only (C := C2) f p s w2 Hq Hd Ho).
  - destruct (le_lt_dec 5 (crime_frame_count s + 1)) as [H5 | H5].
    + pose proof (detect_crime_trigger (C := C1) f p s w1 Hq H5 Hd) as Hs1.
      pose proof (detect_crime_trigger (C := C2) f p s w2 Hq H5 Hd) as Hs2.
      cbv zeta in Hs1, Hs2. rewrite Hs1, Hs2. clear Hs1 Hs2.
      unfold same_disk. cbn [fst snd fs drive_calls]. split; [reflexivity |].
      split; [now rewrite Hfs |].
      match goal with |- drive_calls (snd (send_alert ?m1 ?wo1)) = drive_calls (snd (send_alert ?m2 ?wo2)) =>
        destruct (send_alert_frame (C := C1) wo1 m1) as (_ & -> & _);
        destruct (send_alert_frame (C := C2) wo2 m2) as (_ & -> & _) end.
      exact Hdc.
    + now rewrite (detect_crime_accumulating (C := C1) f p s w1 Hq H5 Hd),
        (detect_crime_accumulating (C := C2) f p s w2 Hq H5 Hd).
  - destruct (out s) as [o |] eqn:Ho.
    + rewrite (detect_crime_run_end (C := C1) f p s w1 o Hq Hd Ho),
        (detect_crime_run_end (C := C2) f p s w2 o Hq Hd Ho). cbv zeta.
      match goal with |- context [upload_to_drive (C := C1) ?path ?wr1] =>
        match goal with |- context [upload_to_drive (C := C2) path ?wr2] =>
          destruct (upload_to_drive_same_disk wr1 wr2 path) as (Hr & Hs);
          [split; [exact Hfs | exact Hdc] |];
          destruct (upload_to_drive (C := C1) path wr1) as [r1 wu1];
          destruct (upload_to_drive (C := C2) path wr2) as [r2 wu2] end end.
      cbn [fst snd] in *. subst r2. destruct r1 as [link | e]; cbn [fst snd]; [| auto].
      split; [reflexivity |]. now apply send_alert_same_disk.
    + now rewrite (detect_crime_flag_reset (C := C1) f p s w1 Hq Hd Ho),
        (detect_crime_flag_reset (C := C2) f p s w2 Hq Hd Ho).
  - now rewrite (detect_crime_idle (C := C1) f p s w1 Hq Hd),
      (detect_crime_idle (C := C2) f p s w2 Hq Hd).
Qed.

Lemma loop_body_same_disk f s w1 w2 :
  same_disk w1 w2 ->
  fst (loop_body (C := C1) f s w1) = fst (loop_body (C := C2) f s w2) /\
  same_disk (snd (loop_body (C := C1) f s w1)) (snd (loop_body (C := C2) f s w2)).
Proof.
  intros Hsame.
  destruct (Nat.eq_dec ((frame_count s + 1) mod FRAME_SKIP) 0) as [E | E].
  - pose proof (loop_body_forwarded (C := C1) f s w1 E) as Hb1.
    pose proof (loop_body_forwarded (C := C2) f s w2 E) as Hb2.
    cbv zeta in Hb1, Hb2. rewrite Hb1, Hb2. clear Hb1 Hb2. rewrite same_classifier.
    destruct (_ =? SEQ_LENGTH); [| now split].
    destruct (predict_activity _) as [p |]; [| now split].
    apply detect_crime_same_disk. exact Hsame.
  - now rewrite (loop_body_skipped (C := C1) f s w1 E), (loop_body_skipped (C := C2) f s w2 E).
Qed.

Lemma loop_same_disk (frames : list frame) : forall s w1 w2,
  same_disk w1 w2 ->
  fst (loop (C := C1) frames s w1) = fst (loop (C := C2) frames s w2) /\
  same_disk (snd (loop (C := C1) frames s w1)) (snd (loop (C := C2) frames s w2)).
Proof.
  induction frames as [| f frames IH]; intros s w1 w2 Hsame; [now split |].
  cbn [loop]. unfold mbind, M_bind.
  destruct (loop_body_same_disk f s w1 w2 Hsame) as (Hr & Hs).
  destruct (loop_body (C := C1) f s w1) as [r1 v1].
  destruct (loop_body (C := C2) f s w2) as [r2 v2].
  cbn [fst snd] in *. subst r2. destruct r1 as [s1 | e]; [| now split].
  now apply IH.
Qed.

(** X5: alerts are best effort.  Two runs of the route on the same
    upload, with the same classifier and the same Drive but any clocks,
    any Twilio outcomes and any alert history, give the same response or
    the same exception, and leave the same files on disk. *)
Theorem response_ignores_alerts (file : option (video_file frame)) w1 w2 :
  same_disk w1 w2 ->
  fst (upload_video (C := C1) file w1) = fst (upload_video (C := C2) file w2) /\
  fs (snd (upload_video (C := C1) file w1)) = fs (snd (upload_video (C := C2) file w2)).
Proof.
  intros Hsame. destruct file as [v |]; [| split; [reflexivity | apply Hsame]].
  unfold upload_video, mbind, M_bind.
  destruct (loop_same_disk (VideoCapture v) init_locals w1 w2 Hsame) as (Hr & Hs).
  destruct (loop (C := C1) (VideoCapture v) init_locals w1) as [r1 v1].
  destruct (loop (C := C2) (VideoCapture v) init_locals w2) as [r2 v2].
  cbn [fst snd] in *. subst r2. destruct r1 as [s1 | e]; [| split; [reflexivity | apply Hs]].
  rewrite !close_at_end_trace. cbn [fst snd fs]. split; [reflexivity | apply Hs].
Qed.

End AlertIndependence.

Section ThrottleAndLabels.
Context {frame : Type} `{C : Collaborators frame}.

Implicit Types (w : world frame) (msg : message).

(** X6: with a clock that does not run backwards between the two
    readings of a call, [send_alert] moves [last_alert_time] only when it
    delivers, and then by at least [ALERT_INTERVAL]: the timestamps of
    delivered alerts are never closer than the interval. *)
Theorem alert_timestamp_advances w msg :
  (clock (time_calls w) <= clock (S (time_calls w)))%Q ->
  let w' := snd (send_alert msg w) in
  (trace w' = trace w ++ [AlertSent msg] /\
   (last_alert_time w + ALERT_INTERVAL <= last_alert_time w')%Q) \/
  ((trace w' = trace w \/ trace w' = trace w ++ [AlertFailed msg]) /\
   last_alert_time w' = last_alert_time w).
Proof.
  intros Hmono w'. subst w'.
  destruct (send_alert_cases w msg)
    as [(_ & Ht & _ & Hl) | [(Hge & _ & Ht & _ & Hl) | (_ & _ & Ht & _ & Hl)]].
  - right. auto.
  - left. split; [exact Ht |]. rewrite Hl. lra.
  - right. auto.
Qed.

Lemma lower_upper_ascii (c : ascii) : lower_ascii (upper_ascii c) = lower_ascii c.
Proof. destruct c as [[] [] [] [] [] [] [] []]; reflexivity. Qed.

Lemma lower_lower_ascii (c : ascii) : lower_ascii (lower_ascii c) = lower_ascii c.
Proof. destruct c as [[] [] [] [] [] [] [] []]; reflexivity. Qed.

Lemma lower_upper (l : string) : lower (upper l) = lower l.
Proof. induction l as [| c l IH]; cbn; [| rewrite lower_upper_ascii, IH]; reflexivity. Qed.

Lemma lower_lower (l : string) : lower (lower l) = lower l.
Proof. induction l as [| c l IH]; cbn; [| rewrite lower_lower_ascii, IH]; reflexivity. Qed.

(** X7: the crime test does not see the case of the label: a prediction
    qualifies exactly when its upper-cased and its lower-cased versions
    do, at the same confidence. *)
Theorem qualifies_ignores_case (l : string) (c : Q) :
  qualifies (upper l, c) = qualifies (l, c) /\
  qualifies (lower l, c) = qualifies (l, c).
Proof.
  unfold qualifies. cbn [fst snd]. now rewrite lower_upper, lower_lower.
Qed.

End ThrottleAndLabels.

Section WindowProperties.
Context {frame : Type} `{C : Collaborators frame}.

Implicit Types (w : world frame) (s : locals frame) (f : frame) (p : prediction).
Implicit Types (frames seen : list frame) (d t : list (event frame)).

Lemma deque_append_most_recent seen f :
  deque_append SEQ_LENGTH (most_recent SEQ_LENGTH seen) f
  = most_recent SEQ_LENGTH (seen ++ [f]).
Proof.
  unfold deque_append, most_recent, SEQ_LENGTH.
  rewrite !length_app, length_drop. cbn [length].
  destruct (le_lt_dec 16 (length seen)) as [Hfull | Hshort].
  - replace (16 <? length seen - (length seen - 16) + 1) with true
      by (symmetry; apply Nat.ltb_lt; lia).
    replace (length seen + 1 - 16) with (S (length seen - 16)) by lia.
    rewrite (drop_app_le seen [f]) by lia.
    destruct (drop (length seen - 16) seen) as [| x r] eqn:E.
    + apply (f_equal (@length _)) in E. rewrite length_drop in E. cbn in E. lia.
    + cbn [app tail]. f_equal.
      change r with (drop 1 (x :: r)). rewrite <- E, drop_drop. f_equal. lia.
  - replace (16 <? length seen - (length seen - 16) + 1) with false
      by (symmetry; apply Nat.ltb_ge; lia).
    replace (length seen - 16) with 0 by lia.
    replace (length seen + 1 - 16) with 0 by lia. reflexivity.
Qed.

Lemma offered_frames_app t d : offered_frames (t ++ d) = offered_frames t ++ offered_frames d.
Proof.
  induction t as [| e t IH]; [reflexivity |].
  destruct e; cbn; rewrite IH; reflexivity.
Qed.

Lemma windows_from_app t d : forall seen,
  windows_from seen (t ++ d) <->
  windows_from seen t /\ windows_from (seen ++ offered_frames t) d.
Proof.
  induction t as [| e t IH]; intros seen.
  - cbn. rewrite app_nil_r. tauto.
  - destruct e; cbn [app windows_from offered_frames]; rewrite IH;
      rewrite <- ?app_assoc; cbn [app]; tauto.
Qed.

Lemma clip_events_no_window (disk : gmap string (list frame)) d seen :
  Forall (clip_event disk) d -> windows_from seen d /\ offered_frames d = [].
Proof.
  induction 1 as [| e d He _ (IHw & IHo)]; [now split |].
  destruct e; cbn in He; try contradiction; cbn; auto.
Qed.

Lemma loop_body_window f s w seen :
  frame_buffer s = most_recent SEQ_LENGTH seen ->
  exists d,
    trace (snd (loop_body f s w)) = trace w ++ d /\
    windows_from seen d /\
    forall s', fst (loop_body f s w) = Ok s' ->
               frame_buffer s' = most_recent SEQ_LENGTH (seen ++ offered_frames d).
Proof.
  intros Hbuf.
  destruct (Nat.eq_dec ((frame_count s + 1) mod FRAME_SKIP) 0) as [E | E].
  - pose proof (loop_body_forwarded f s w E) as Hb. cbv zeta in Hb. rewrite Hb. clear Hb.
    on_locals. rewrite Hbuf, deque_append_most_recent.
    destruct (_ =? SEQ_LENGTH) eqn:Hfull.
    + apply Nat.eqb_eq in Hfull. destruct (predict_activity _) as [p |].
      * match goal with |- context [detect_crime f p ?s1 ?wc] =>
          destruct (detect_crime_events f p s1 wc) as (d & Ht & Hd & _ & Hs) end.
        destruct (clip_events_no_window _ d (seen ++ [f]) Hd) as (Hw & Ho).
        exists ([Offered f; Classified (most_recent SEQ_LENGTH (seen ++ [f]))] ++ d).
        split; [rewrite Ht; cbn [trace]; now rewrite <- !app_assoc |].
        split; [cbn; auto |].
        intros s' Hs'. destruct (Hs s' Hs') as (-> & _). on_locals.
        cbn [app offered_frames]. now rewrite Ho.
      * exists [Offered f; Classified (most_recent SEQ_LENGTH (seen ++ [f]))].
        cbn [fst snd trace]. split; [now rewrite <- app_assoc |].
        split; [cbn; auto | intros s' [=]].
    + exists [Offered f]. cbn [fst snd trace]. split; [reflexivity |].
      split; [exact I |]. intros s' [= <-]. reflexivity.
  - rewrite (loop_body_skipped f s w E). cbn [fst snd].
    exists []. split; [now rewrite app_nil_r |]. split; [exact I |].
    intros s' [= <-]. on_locals. now rewrite app_nil_r.
Qed.

Lemma loop_window frames : forall s w seen,
  frame_buffer s = most_recent SEQ_LENGTH seen ->
  exists d, trace (snd (loop frames s w)) = trace w ++ d /\ windows_from seen d.
Proof.
  induction frames as [| f frames IH]; intros s w seen Hbuf.
  - exists []. cbn. now rewrite app_nil_r.
  - cbn [loop]. unfold mbind, M_bind.
    destruct (loop_body_window f s w seen Hbuf) as (d1 & Ht1 & Hw1 & Hs1).
    destruct (loop_body f s w) as [[s1 | e] w1]; cbn [fst snd] in *.
    + destruct (IH s1 w1 _ (Hs1 s1 eq_refl)) as (d2 & Ht2 & Hw2).
      exists (d1 ++ d2). split; [now rewrite Ht2, Ht1, app_assoc |].
      apply windows_from_app. auto.
    + exists d1. auto.
Qed.

(** X8: however a request ends, every window it handed to the classifier
    held exactly [SEQ_LENGTH] frames: the [SEQ_LENGTH] most recent frames
    pushed on the window before the call, oldest first. *)
Theorem classifier_sees_latest_window (file : option (video_file frame)) w :
  exists d, trace (snd (upload_video file w)) = trace w ++ d /\ windows_from [] d.
Proof.
  destruct file as [v |]; [| exists []; cbn; now rewrite app_nil_r].
  unfold upload_video, mbind, M_bind.
  destruct (loop_window (VideoCapture v) init_locals w [] eq_refl) as (d & Ht & Hw).
  destruct (loop (VideoCapture v) init_locals w) as [[s1 | e] w1]; cbn [fst snd] in *.
  - rewrite close_at_end_trace. cbn [snd trace].
    exists (d ++ match out s1 with Some o => [WriterReleased (w_path o)] | None => [] end).
    split; [now rewrite Ht, app_assoc |]. apply windows_from_app. split; [exact Hw |].
    now destruct (out s1).
  - exists d. auto.
Qed.

End WindowProperties.

Section PredictionCount.
Context {frame : Type} `{C : Collaborators frame}.

Implicit Types (w : world frame) (s : locals frame) (f : frame) (p : prediction).
Implicit Types (frames : list frame) (d : list (event frame)).

Lemma deque_append_length_full (b : list frame) f :
  length b = SEQ_LENGTH -> length (deque_append SEQ_LENGTH b f) = SEQ_LENGTH.
Proof.
  intros H. unfold deque_append. rewrite length_app, H. cbn [length].
  replace (SEQ_LENGTH <? SEQ_LENGTH + 1) with true by (symmetry; apply Nat.ltb_lt; lia).
  destruct b as [| x b]; [discriminate |]. cbn [app tail]. rewrite length_app. cbn in *. lia.
Qed.

(** One iteration keeps the window as long as the forwarded frames allow,
    and records one prediction exactly when it calls the classifier. *)
Lemma loop_body_counts f s w :
  length (frame_buffer s) = Nat.min (frame_count s / FRAME_SKIP) SEQ_LENGTH ->
  exists d,
    trace (snd (loop_body f s w)) = trace w ++ d /\
    forall s', fst (loop_body f s w) = Ok s' ->
      frame_count s' = frame_count s + 1 /\
      length (frame_buffer s') = Nat.min (frame_count s' / FRAME_SKIP) SEQ_LENGTH /\
      length (all_predictions s') + (frame_count s / FRAME_SKIP - (SEQ_LENGTH - 1))
      = length (all_predictions s) + (frame_count s' / FRAME_SKIP - (SEQ_LENGTH - 1)) /\
      length (all_predictions s') = length (all_predictions s) + classified d.
Proof.
  intros Hbuf.
  destruct (Nat.eq_dec ((frame_count s + 1) mod FRAME_SKIP) 0) as [E | E].
  - pose proof (loop_body_forwarded f s w E) as Hb. cbv zeta in Hb. rewrite Hb. clear Hb.
    on_locals. pose proof (skip_next _ E) as Hnext.
    assert (Hlen : length (deque_append SEQ_LENGTH (frame_buffer s) f)
                   = Nat.min ((frame_count s + 1) / FRAME_SKIP) SEQ_LENGTH).
    { destruct (le_lt_dec SEQ_LENGTH (frame_count s / FRAME_SKIP)).
      - rewrite deque_append_length_full by lia. lia.
      - rewrite deque_append_length by lia. lia. }
    destruct (_ =? SEQ_LENGTH) eqn:Hfull.
    + apply Nat.eqb_eq in Hfull. destruct (predict_activity _) as [p |].
      * match goal with |- context [detect_crime f p ?s1 ?wc] =>
          destruct (detect_crime_events f p s1 wc) as (d & Ht & Hd & _ & Hs) end.
        destruct (clip_events_quiet _ _ Hd) as (_ & Hc & _).
        eexists ([_; _] ++ d). split; [rewrite Ht; cbn [trace]; now rewrite <- !app_assoc |].
        intros s' Hs'. destruct (Hs s' Hs') as (-> & -> & ->). on_locals.
        rewrite length_app, classified_app, Hc. cbn [length].
        change (classified [Offered f; Classified ?win]) with 1.
        unfold SEQ_LENGTH in *. lia.
      * eexists [_; _]. cbn [fst snd trace]. split; [now rewrite <- app_assoc |].
        intros s' [=].
    + apply Nat.eqb_neq in Hfull. exists [Offered f]. cbn [fst snd trace].
      split; [reflexivity |]. intros s' [= <-]. on_locals.
      change (classified [Offered f]) with 0. unfold SEQ_LENGTH in *. lia.
  - rewrite (loop_body_skipped f s w E). cbn [fst snd]. pose proof (skip_same _ E) as Hsame.
    exists []. split; [now rewrite app_nil_r |]. intros s' [= <-]. on_locals.
    change (classified (frame := frame) []) with 0. lia.
Qed.

Lemma loop_counts frames : forall s w,
  length (frame_buffer s) = Nat.min (frame_count s / FRAME_SKIP) SEQ_LENGTH ->
  exists d,
    trace (snd (loop frames s w)) = trace w ++ d /\
    forall s', fst (loop frames s w) = Ok s' ->
      frame_count s' = frame_count s + length frames /\
      length (all_predictions s') + (frame_count s / FRAME_SKIP - (SEQ_LENGTH - 1))
      = length (all_predictions s) + (frame_count s' / FRAME_SKIP - (SEQ_LENGTH - 1)) /\
      length (all_predictions s') = length (all_predictions s) + classified d.
Proof.
  induction frames as [| f frames IH]; intros s w Hbuf.
  - exists []. cbn [loop fst snd mret M_ret length]. rewrite app_nil_r.
    split; [reflexivity |]. intros s' [= <-].
    change (classified (frame := frame) []) with 0. lia.
  - cbn [loop length]. unfold mbind, M_bind.
    destruct (loop_body_counts f s w Hbuf) as (d1 & Ht1 & Hs1).
    destruct (loop_body f s w) as [[s1 | e] w1]; cbn [fst snd] in *.
    + destruct (Hs1 s1 eq_refl) as (Hfc1 & Hbuf1 & Hp1 & Hc1).
      destruct (IH s1 w1 Hbuf1) as (d2 & Ht2 & Hs2).
      exists (d1 ++ d2). split; [now rewrite Ht2, Ht1, app_assoc |].
      intros s' Hs'. destruct (Hs2 s' Hs') as (Hfc2 & Hp2 & Hc2).
      rewrite classified_app. lia.
    + exists d1. split; [exact Ht1 |]. intros s' [=].
Qed.

(** X9: the window slides one frame at a time.  A loop that reads all
    of its frames has called the classifier once for every forwarded
    frame from the [SEQ_LENGTH]-th on, and has recorded one prediction a
    call: [length frames / FRAME_SKIP - (SEQ_LENGTH - 1)] of them, none
    when fewer than [SEQ_LENGTH] frames were forwarded. *)
Theorem one_prediction_per_forwarded_frame frames w s' w' :
  loop frames init_locals w = (Ok s', w') ->
  length (all_predictions s') = length frames / FRAME_SKIP - (SEQ_LENGTH - 1) /\
  exists d, trace w' = trace w ++ d /\ classified d = length (all_predictions s').
Proof.
  intros Hrun.
  destruct (loop_counts frames init_locals w eq_refl) as (d & Ht & Hs).
  rewrite Hrun in Ht, Hs. cbn [fst snd] in *.
  destruct (Hs s' eq_refl) as (Hfc & Hp & Hc). on_locals.
  change (0 / FRAME_SKIP) with 0 in Hp. rewrite Hfc in Hp. cbn [Nat.add length] in *.
  split; [unfold SEQ_LENGTH in *; lia |]. exists d. split; [exact Ht | lia].
Qed.

End PredictionCount.

Section DriveAuth.
Context {creds : Type} `{O : OAuth creds}.

Implicit Types (a : auth_state creds) (svc : service creds).

(** X10: whenever [google_drive_service] returns a service, "token.pkl"
    holds the credentials that service was built with, whether they were
    read from the file, refreshed, or obtained from the consent flow. *)
Theorem token_file_holds_credentials_in_use a svc a' :
  google_drive_service a = (inr svc, a') ->
  token_pkl a' = Some (credentials svc).
Proof.
  unfold google_drive_service, consent_flow.
  destruct (token_pkl a) as [c |] eqn:Ht.
  - destruct (valid c); cbn [negb].
    + intros [= <- <-]. first [exact Ht | reflexivity].
    + destruct (expired c && has_refresh_token c).
      * destruct (refresh c); intros [= <- <-]. reflexivity.
      * destruct (run_local_server (flows a)); intros [= <- <-]. reflexivity.
  - destruct (run_local_server (flows a)); intros [= <- <-]. reflexivity.
Qed.

(** X11: once a call has returned a service whose credentials are valid,
    the next call returns the same service without a refresh, without
    the consent flow and without touching "token.pkl". *)
Theorem valid_token_is_reused a svc a' :
  google_drive_service a = (inr svc, a') ->
  valid (credentials svc) = true ->
  google_drive_service a' = (inr svc, a').
Proof.
  intros Hcall Hvalid.
  assert (Ht : token_pkl a' = Some (credentials svc)).
  { revert Hcall. unfold google_drive_service, consent_flow.
    destruct (token_pkl a) as [c |] eqn:Ht.
    - destruct (valid c); cbn [negb].
      + intros [= <- <-]. first [exact Ht | reflexivity].
      + destruct (expired c && has_refresh_token c).
        * destruct (refresh c); intros [= <- <-]. reflexivity.
        * destruct (run_local_server (flows a)); intros [= <- <-]. reflexivity.
    - destruct (run_local_server (flows a)); intros [= <- <-]. reflexivity. }
  unfold google_drive_service. rewrite Ht, Hvalid. cbn [negb]. now destruct svc.
Qed.

(** X12: a failure before "token.pkl" is opened for writing leaves it
    alone.  When the stored credentials are expired with a refresh token
    and [creds.refresh] raises, the call ends in that exception without
    running the consent flow; when the consent flow is due and raises,
    the call ends in that exception.  In both cases "token.pkl" is what
    it was. *)
Theorem failed_refresh_or_flow_keeps_token_file a :
  (forall c,
      token_pkl a = Some c -> valid c = false ->
      expired c && has_refresh_token c = true ->
      refresh c = None ->
      google_drive_service a =
        (inl RefreshError,
         {| token_pkl := token_pkl a; refreshes := S (refreshes a); flows := flows a |})) /\
  ((token_pkl a = None \/
    exists c, token_pkl a = Some c /\ valid c = false /\
              expired c && has_refresh_token c = false) ->
   run_local_server (flows a) = None ->
   google_drive_service a =
     (inl FlowError,
      {| token_pkl := token_pkl a; refreshes := refreshes a; flows := S (flows a) |})).
Proof.
  unfold google_drive_service, consent_flow. split.
  - intros c Ht Hv He Hr. now rewrite Ht, Hv, He, Hr.
  - intros [Ht | (c & Ht & Hv & He)] Hf.
    + now rewrite Ht, Hf.
    + now rewrite Ht, Hv, He, Hf.
Qed.

End DriveAuth.

Section QuietRequests.
Context {frame : Type} `{C : Collaborators frame}.

Implicit Types (w : world frame) (s : locals frame) (f : frame) (p : prediction).
Implicit Types (frames : list frame) (d : list (event frame)).

Hypothesis never_qualifies :
  forall window, exists p, predict_activity window = Some p /\ qualifies p = false.

Lemma outward_app d d' : outward (d ++ d') = outward d ++ outward d'.
Proof. unfold outward. apply List.filter_app. Qed.

Lemma loop_body_quiet f s w :
  crime_detected s = false ->
  exists s' d,
    loop_body f s w =
      (Ok s', {| last_alert_time := last_alert_time w; time_calls := time_calls w;
                 twilio_calls := twilio_calls w; drive_calls := drive_calls w;
                 fs := fs w; trace := trace w ++ d |}) /\
    outward d = [] /\ crime_detected s' = false /\ out s' = out s.
Proof.
  intros Hd.
  destruct (Nat.eq_dec ((frame_count s + 1) mod FRAME_SKIP) 0) as [E | E].
  - pose proof (loop_body_forwarded f s w E) as Hb. cbv zeta in Hb. rewrite Hb. clear Hb.
    destruct (_ =? SEQ_LENGTH).
    + match goal with |- context [predict_activity ?win] =>
        destruct (never_qualifies win) as (p & -> & Hq) end.
      rewrite detect_crime_idle by (on_locals; assumption).
      eexists _, [_; _]. split; [now rewrite <- app_assoc |].
      split; [reflexivity |]. on_locals. destruct (0 <? crime_frame_count s); on_locals; auto.
    + eexists _, [_]. split; [reflexivity |]. split; [reflexivity |]. on_locals. auto.
  - rewrite (loop_body_skipped f s w E).
    eexists _, []. rewrite app_nil_r. split; [now destruct w |].
    split; [reflexivity |]. on_locals. auto.
Qed.

Lemma loop_quiet frames : forall s w,
  crime_detected s = false ->
  exists s' d,
    loop frames s w =
      (Ok s', {| last_alert_time := last_alert_time w; time_calls := time_calls w;
                 twilio_calls := twilio_calls w; drive_calls := drive_calls w;
                 fs := fs w; trace := trace w ++ d |}) /\
    outward d = [] /\ out s' = out s.
Proof.
  induction frames as [| f frames IH]; intros s w Hd.
  - exists s, []. rewrite app_nil_r. split; [now destruct w | auto].
  - cbn [loop]. unfold mbind, M_bind.
    destruct (loop_body_quiet f s w Hd) as (s1 & d1 & -> & Ho1 & Hd1 & Hout1).
    destruct (IH s1 {| last_alert_time := last_alert_time w; time_calls := time_calls w;
                       twilio_calls := twilio_calls w; drive_calls := drive_calls w;
                       fs := fs w; trace := trace w ++ d1 |} Hd1)
      as (s' & d2 & -> & Ho2 & Hout2).
    exists s', (d1 ++ d2). cbn [last_alert_time time_calls twilio_calls drive_calls fs trace].
    rewrite app_assoc, outward_app, Ho1, Ho2. split; [reflexivity |].
    split; [reflexivity | congruence].
Qed.

(** X13: no false alarm.  With a classifier that never returns a
    qualifying prediction the frame loop reads the whole capture and,
    apart from pushing frames and classifying windows, does nothing: no
    writer is opened, no file is written, the clock is not read, no
    message and no upload is attempted; the cleanup after the loop finds
    no writer to release. *)
Theorem no_qualifying_prediction_no_effect frames w :
  exists s' d,
    loop frames init_locals w =
      (Ok s', {| last_alert_time := last_alert_time w; time_calls := time_calls w;
                 twilio_calls := twilio_calls w; drive_calls := drive_calls w;
                 fs := fs w; trace := trace w ++ d |}) /\
    outward d = [] /\
    forall w1, close_at_end s' w1 = (Ok tt, w1).
Proof.
  destruct (loop_quiet frames init_locals w eq_refl) as (s' & d & Hrun & Ho & Hout).
  exists s', d. split; [exact Hrun |]. split; [exact Ho |].
  intros w1. unfold close_at_end. now rewrite Hout.
Qed.

End QuietRequests.

Section ResponseProperties.
Context {frame : Type} `{C : Collaborators frame}.

Implicit Types (w : world frame) (s : locals frame) (f : frame) (p : prediction).
Implicit Types (frames : list frame) (d t : list (event frame)).

Lemma classified_windows_app t d :
  classified_windows (t ++ d) = classified_windows t ++ classified_windows d.
Proof.
  induction t as [| e t IH]; [reflexivity |].
  destruct e; cbn; rewrite IH; reflexivity.
Qed.

Lemma clip_events_no_classification (disk : gmap string (list frame)) d :
  Forall (clip_event disk) d -> classified_windows d = [].
Proof.
  induction 1 as [| e d He _ IH]; [reflexivity |].
  destruct e; cbn in He; try contradiction; cbn; auto.
Qed.

Lemma loop_body_predictions f s w :
  exists d,
    trace (snd (loop_body f s w)) = trace w ++ d /\
    forall s', fst (loop_body f s w) = Ok s' ->
      map Some (all_predictions s')
      = map Some (all_predictions s) ++ map predict_activity (classified_windows d).
Proof.
  destruct (Nat.eq_dec ((frame_count s + 1) mod FRAME_SKIP) 0) as [E | E].
  - pose proof (loop_body_forwarded f s w E) as Hb. cbv zeta in Hb. rewrite Hb. clear Hb.
    on_locals. destruct (_ =? SEQ_LENGTH).
    + destruct (predict_activity _) as [p |] eqn:Hp.
      * match goal with |- context [detect_crime f p ?s1 ?wc] =>
          destruct (detect_crime_events f p s1 wc) as (d & Ht & Hd & _ & Hs) end.
        eexists ([_; _] ++ d). split; [rewrite Ht; cbn [trace]; now rewrite <- !app_assoc |].
        intros s' Hs'. destruct (Hs s' Hs') as (_ & -> & _). on_locals.
        rewrite classified_windows_app, (clip_events_no_classification _ _ Hd), map_app.
        cbn. now rewrite Hp.
      * eexists [_; _]. cbn [fst snd trace]. split; [now rewrite <- app_assoc |].
        intros s' [=].
    + exists [Offered f]. cbn [fst snd trace]. split; [reflexivity |].
      intros s' [= <-]. on_locals. cbn. now rewrite app_nil_r.
  - rewrite (loop_body_skipped f s w E). cbn [fst snd].
    exists []. split; [now rewrite app_nil_r |]. intros s' [= <-]. on_locals.
    cbn. now rewrite app_nil_r.
Qed.

Lemma loop_predictions frames : forall s w,
  exists d,
    trace (snd (loop frames s w)) = trace w ++ d /\
    forall s', fst (loop frames s w) = Ok s' ->
      map Some (all_predictions s')
      = map Some (all_predictions s) ++ map predict_activity (classified_windows d).
Proof.
  induction frames as [| f frames IH]; intros s w.
  - exists []. cbn. rewrite !app_nil_r. split; [reflexivity |]. now intros s' [= <-].
  - cbn [loop]. unfold mbind, M_bind.
    destruct (loop_body_predictions f s w) as (d1 & Ht1 & Hs1).
    destruct (loop_body f s w) as [[s1 | e] w1]; cbn [fst snd] in *.
    + destruct (IH s1 w1) as (d2 & Ht2 & Hs2).
      exists (d1 ++ d2). split; [now rewrite Ht2, Ht1, app_assoc |].
      intros s' Hs'. rewrite (Hs2 s' Hs'), (Hs1 s1 eq_refl), classified_windows_app, map_app.
      now rewrite app_assoc.
    + exists d1. split; [exact Ht1 |]. intros s' [=].
Qed.

(** X14: the response of a request that returns is computed from what the
    classifier returned and nothing else: the predictions it chooses
    among are the classifier's answers on the windows of the trace, in
    the order of the calls, and the response carries the label of their
    best prediction and its confidence rounded to two decimals. *)
Theorem response_is_best_of_classifier_outputs (v : video_file frame) w resp w' :
  upload_video (Some v) w = (Ok resp, w') ->
  exists d preds,
    trace w' = trace w ++ d /\
    map Some preds = map predict_activity (classified_windows d) /\
    resp = Json200 (fst (best_prediction preds)) (round2 (snd (best_prediction preds))).
Proof.
  unfold upload_video, mbind, M_bind.
  destruct (loop_predictions (VideoCapture v) init_locals w) as (d & Ht & Hs).
  destruct (loop (VideoCapture v) init_locals w) as [[s1 | e] w1]; [| discriminate].
  cbn [fst snd] in *. rewrite close_at_end_trace. intros [= <- <-]. cbn [trace].
  exists (d ++ match out s1 with Some o => [WriterReleased (w_path o)] | None => [] end),
    (all_predictions s1).
  split; [now rewrite Ht, app_assoc |]. split; [| reflexivity].
  rewrite (Hs s1 eq_refl), classified_windows_app. on_locals. cbn [map app].
  destruct (out s1); cbn; now rewrite app_nil_r.
Qed.

End ResponseProperties.

(** ** The further properties at concrete inputs *)

Lemma classifier_failure_leaves_writer_open_witness :
  one_at_a_time false
    (trace (snd (upload_video (C := classifier_breaks_at 105)
                   (Some (Decodable (seq 1 104 ++ 105 :: seq 106 5))) fresh_world)))
  = Some true.
Proof.
  assert (E : exists s1 w1,
             loop (C := classifier_breaks_at 105) (seq 1 104) init_locals fresh_world
             = (Ok s1, w1) /\
             crime_detected s1 = true /\ frame_count s1 = 104 /\
             frame_buffer s1 = map (fun n => 5 * n) (seq 5 16))
    by (vm_compute; eauto 10).
  destruct E as (s1 & w1 & E & Hrec & Hc & Hb).
  destruct (classifier_failure_leaves_writer_open (C := classifier_breaks_at 105)
              (seq 1 104) (seq 106 5) 105 fresh_world s1 w1 E Hrec) as (d & Ht & Hone & _).
  - rewrite Hc. reflexivity.
  - rewrite Hb. reflexivity.
  - rewrite Hb. reflexivity.
  - rewrite Ht. exact Hone.
Defined.

Lemma upload_failure_aborts_witness :
  fst (upload_video (C := robbery_until_drive_down 115)
         (Some (Decodable (seq 1 114 ++ 115 :: seq 116 10))) fresh_world)
  = Raise UploadError.
Proof.
  assert (E : exists s1 w1,
             loop (C := robbery_until_drive_down 115) (seq 1 114) init_locals fresh_world
             = (Ok s1, w1) /\
             crime_detected s1 = true /\ out s1 = Some {| w_path := CLIP_PATH |} /\
             frame_count s1 = 114 /\
             frame_buffer s1 = map (fun n => 5 * n) (seq 7 16))
    by (vm_compute; eauto 10).
  destruct E as (s1 & w1 & E & Hrec & Hout & Hc & Hb).
  destruct (upload_failure_aborts (C := robbery_until_drive_down 115)
              (seq 1 114) (seq 116 10) 115 ("walking", (8 # 10)%Q) fresh_world s1 w1
              {| w_path := CLIP_PATH |} E) as (Hr & _).
  - rewrite Hc. reflexivity.
  - rewrite Hb. reflexivity.
  - rewrite Hb. reflexivity.
  - reflexivity.
  - exact Hrec.
  - exact Hout.
  - reflexivity.
  - exact Hr.
Defined.

Lemma episode_uploads_its_frames_witness :
  fs (snd (run_detector (C := robbery_until_unreachable 0)
             ((100, ("robbery", (9 # 10)%Q))
                :: [(105, ("STEALING", (8 # 10)%Q))] ++ [(110, ("robbery", (7 # 10)%Q))])
             four_counted old_clip_world)) !! "crime_clip.mp4"
  = Some [100; 105].
Proof.
  destruct (episode_uploads_its_frames (C := robbery_until_unreachable 0)
              100 ("robbery", (9 # 10)%Q) [(105, ("STEALING", (8 # 10)%Q))]
              110 ("robbery", (7 # 10)%Q) four_counted old_clip_world "clip")
    as (w' & d & Hrun & Hfs & _).
  - reflexivity.
  - cbn. lia.
  - reflexivity.
  - repeat constructor.
  - reflexivity.
  - reflexivity.
  - change (fs (snd (run_detector (C := robbery_until_unreachable 0)
                       ([(100, ("robbery", (9 # 10)%Q))]
                          ++ [(105, ("STEALING", (8 # 10)%Q))]
                          ++ [(110, ("robbery", (7 # 10)%Q))])
                       four_counted old_clip_world)) !! "crime_clip.mp4" = Some [100; 105]).
    exact (eq_trans (f_equal (fun r => fs (snd r) !! "crime_clip.mp4") Hrun)
             (eq_trans (f_equal (fun m => m !! "crime_clip.mp4") Hfs)
                (lookup_insert_eq _ _ _))).
Defined.

Lemma response_ignores_alerts_witness :
  fst (upload_video (C := robbery_until 115 1) (Some (Decodable (seq 1 130))) fresh_world)
  = fst (upload_video (C := robbery_until_unreachable 115) (Some (Decodable (seq 1 130)))
           {| last_alert_time := 995 # 1; time_calls := 7; twilio_calls := 3;
              drive_calls := 0; fs := ∅; trace := [AlertSent (Warning "STEALING")] |}).
Proof.
  exact (proj1 (response_ignores_alerts (robbery_until 115 1) (robbery_until_unreachable 115)
                  (fun _ => eq_refl) (fun _ => eq_refl)
                  (Some (Decodable (seq 1 130))) fresh_world
                  {| last_alert_time := 995 # 1; time_calls := 7; twilio_calls := 3;
                     drive_calls := 0; fs := ∅; trace := [AlertSent (Warning "STEALING")] |}
                  (conj eq_refl eq_refl))).
Defined.

Lemma alert_timestamp_advances_witness :
  (ticking 1 0 <= ticking 1 1)%Q /\
  (last_alert_time (frame := nat) fresh_world + ALERT_INTERVAL
   <= last_alert_time (snd (send_alert (C := always_robbery 1) (Warning "ROBBERY") fresh_world)))%Q.
Proof.
  assert (Hmono : (ticking 1 0 <= ticking 1 1)%Q) by (vm_compute; discriminate).
  split; [exact Hmono |].
  destruct (alert_timestamp_advances (C := always_robbery 1) fresh_world (Warning "ROBBERY") Hmono)
    as [(_ & Hadv) | (_ & Hsame)].
  - exact Hadv.
  - vm_compute. discriminate.
Defined.

Lemma one_prediction_per_forwarded_frame_witness :
  exists s' w',
    loop (C := always_walking) (seq 1 103) init_locals fresh_world = (Ok s', w') /\
    length (all_predictions s') = 5.
Proof.
  assert (E : exists s' w',
             loop (C := always_walking) (seq 1 103) init_locals fresh_world = (Ok s', w'))
    by (vm_compute; eauto).
  destruct E as (s' & w' & E). exists s', w'. split; [exact E |].
  destruct (one_prediction_per_forwarded_frame (C := always_walking) _ _ _ _ E) as (Hn & _).
  rewrite Hn. reflexivity.
Defined.

Lemma token_file_holds_credentials_in_use_witness :
  token_pkl (snd (google_drive_service (H := flag_oauth) stale_token))
  = Some {| f_valid := true; f_expired := false; f_token := Some "r" |}.
Proof.
  exact (token_file_holds_credentials_in_use (O := flag_oauth) stale_token
           {| credentials := {| f_valid := true; f_expired := false; f_token := Some "r" |} |}
           (snd (google_drive_service (H := flag_oauth) stale_token)) eq_refl).
Defined.

Lemma valid_token_is_reused_witness :
  google_drive_service (H := flag_oauth)
    (snd (google_drive_service (H := flag_oauth) stale_token))
  = google_drive_service (H := flag_oauth) stale_token.
Proof.
  exact (valid_token_is_reused (O := flag_oauth) stale_token
           {| credentials := {| f_valid := true; f_expired := false; f_token := Some "r" |} |}
           (snd (google_drive_service (H := flag_oauth) stale_token)) eq_refl eq_refl).
Defined.

Lemma failed_refresh_or_flow_keeps_token_file_witness :
  refresh (OAuth := flag_oauth_offline)
    {| f_valid := false; f_expired := true; f_token := Some "r" |} = None /\
  google_drive_service (H := flag_oauth_offline) stale_token
  = (inl RefreshError,
     {| token_pkl := token_pkl stale_token; refreshes := 1; flows := 0 |}).
Proof.
  split; [reflexivity |].
  exact (proj1 (failed_refresh_or_flow_keeps_token_file (O := flag_oauth_offline) stale_token)
           {| f_valid := false; f_expired := true; f_token := Some "r" |}
           eq_refl eq_refl eq_refl eq_refl).
Defined.

Lemma no_qualifying_prediction_no_effect_witness :
  exists s',
    fst (loop (C := always_walking) (seq 1 103) init_locals fresh_world) = Ok s' /\
    outward (trace (snd (loop (C := always_walking) (seq 1 103) init_locals fresh_world))) = [] /\
    fs (snd (loop (C := always_walking) (seq 1 103) init_locals fresh_world)) = ∅.
Proof.
  destruct (no_qualifying_prediction_no_effect (C := always_walking)
              (fun _ => ex_intro _ ("walking", (8 # 10)%Q) (conj eq_refl eq_refl))
              (seq 1 103) fresh_world) as (s' & d & Hrun & Hd & _).
  exists s'. rewrite Hrun. cbn [fst snd trace fs fresh_world app]. auto.
Defined.

Lemma response_is_best_of_classifier_outputs_witness :
  exists resp w',
    upload_video (C := robbery_until 90 1) (Some (Decodable (seq 1 103))) fresh_world
    = (Ok resp, w') /\
    exists d preds,
      trace w' = trace (frame := nat) fresh_world ++ d /\
      map Some preds
      = map (predict_activity (Collaborators := robbery_until 90 1)) (classified_windows d) /\
      resp = Json200 (fst (best_prediction preds)) (round2 (snd (best_prediction preds))).
Proof.
  assert (E : exists resp w',
             upload_video (C := robbery_until 90 1) (Some (Decodable (seq 1 103))) fresh_world
             = (Ok resp, w')) by (vm_compute; eauto).
  destruct E as (resp & w' & E). exists resp, w'. split; [exact E |].
  exact (response_is_best_of_classifier_outputs (C := robbery_until 90 1) _ _ _ _ E).
Defined.
